(** * stock-down: the AKShare downloader and its web front-end

    A shallow embedding of [akshare_downloader.py] (incremental download of
    daily, weekly and minute bars into SQLite) and of the code normalisation
    of [flask_app.py], followed by the properties of the synchronisation
    engine that are stated about them.

    Layout: Python strings, the SQLite store, exceptions and effects, the
    source functions, the thread pool, then the theorems. *)

From Stdlib Require Import List NArith ZArith QArith Bool Arith Lia Lqa Sorted.
From Stdlib Require Ascii String.
Import ListNotations Ascii.AsciiSyntax String.StringSyntax.

Delimit Scope char_scope with char.
Delimit Scope string_scope with string.

Local Close Scope Q_scope.
Local Open Scope list_scope.

(* ===================================================================== *)
(** ** Python strings *)
(* ===================================================================== *)

(** A Python [str] is a sequence of Unicode code points. *)
Definition pystr : Type := list N.

(** The code point of an ASCII character, and a literal of the source
    written as a Rocq string of ASCII characters. *)
Definition ord (c : Ascii.ascii) : N := Ascii.N_of_ascii c.

Definition str (s : String.string) : pystr :=
  map ord (String.list_ascii_of_string s).

Arguments ord c%_char.
Arguments str s%_string.

(** [bool(s)] for a string: the empty string is falsy. *)
Definition truthy (s : pystr) : bool :=
  match s with
  | [] => false
  | _ :: _ => true
  end.

Definition str_eqb (a b : pystr) : bool :=
  if list_eq_dec N.eq_dec a b then true else false.

(** Comparison of two TEXT values under SQLite's BINARY collation: the
    first differing position decides, a proper prefix is smaller.  (On
    UTF-8 this is the order of the code points.) *)
Fixpoint str_compare (a b : pystr) : comparison :=
  match a, b with
  | [], [] => Eq
  | [], _ :: _ => Lt
  | _ :: _, [] => Gt
  | x :: a', y :: b' =>
      match N.compare x y with
      | Eq => str_compare a' b'
      | c => c
      end
  end.

Definition str_leb (a b : pystr) : bool :=
  match str_compare a b with
  | Gt => false
  | _ => true
  end.

Definition str_ltb (a b : pystr) : bool :=
  match str_compare a b with
  | Lt => true
  | _ => false
  end.

(* ===================================================================== *)
(** ** The SQLite store created by [init_db] *)
(* ===================================================================== *)

(** The three tables of [init_db]. *)
Inductive Table : Type := daily | weekly | minute.

Definition Table_eqb (a b : Table) : bool :=
  match a, b with
  | daily, daily | weekly, weekly | minute, minute => true
  | _, _ => false
  end.

(** The name of a table's timestamp column in [init_db]'s schema. *)
Definition date_column (t : Table) : pystr :=
  match t with
  | daily | weekly => str "trade_date"
  | minute => str "datetime"
  end.

Section Data.

(** The carrier of the REAL columns.  The code moves these values from the
    provider's frame into the store and never inspects them. *)
Context {REAL : Type}.

(** The six REAL columns of a row. *)
Record Bar : Type := mkBar {
  open : REAL; high : REAL; low : REAL; close : REAL;
  volume : REAL; amount : REAL
}.

(** One line of the frame the provider returns: its timestamp, then the
    OHLCV values. *)
Record FrameRow : Type := mkFrameRow {
  fr_date : pystr;
  fr_bar : Bar
}.

(** A [pd.DataFrame] as the sequence of its lines. *)
Definition DataFrame : Type := list FrameRow.

(** [df.empty] *)
Definition df_empty (df : DataFrame) : bool :=
  match df with
  | [] => true
  | _ :: _ => false
  end.

(** A stored row: [ts_code], the timestamp column ([trade_date] or
    [datetime]) and the six REAL columns. *)
Record Row : Type := mkRow {
  ts_code : pystr;
  trade_date : pystr;
  bar : Bar
}.

(** [PRIMARY KEY (ts_code, trade_date)] *)
Definition pk (r : Row) : pystr * pystr := (ts_code r, trade_date r).

Definition pk_eqb (k1 k2 : pystr * pystr) : bool :=
  str_eqb (fst k1) (fst k2) && str_eqb (snd k1) (snd k2).

(** The database file: one list of rows per table, in insertion order. *)
Record Store : Type := mkStore {
  tbl_daily : list Row;
  tbl_weekly : list Row;
  tbl_minute : list Row
}.

Definition table_rows (s : Store) (t : Table) : list Row :=
  match t with
  | daily => tbl_daily s
  | weekly => tbl_weekly s
  | minute => tbl_minute s
  end.

Definition set_table (s : Store) (t : Table) (rows : list Row) : Store :=
  match t with
  | daily => mkStore rows (tbl_weekly s) (tbl_minute s)
  | weekly => mkStore (tbl_daily s) rows (tbl_minute s)
  | minute => mkStore (tbl_daily s) (tbl_weekly s) rows
  end.

(** [init_db] on a new file: the three [CREATE TABLE IF NOT EXISTS]
    statements leave three empty tables. *)
Definition init_db : Store := mkStore [] [] [].

(** Does the table already hold a row with this primary key? *)
Definition pk_present (rows : list Row) (k : pystr * pystr) : bool :=
  existsb (fun r => pk_eqb (pk r) k) rows.

(** One multi-row [INSERT INTO t VALUES (...), (...), ...]: the rows go in
    one after the other; the first one whose key is already in the table
    (stored before, or inserted earlier by this statement) fails the
    UNIQUE constraint and the statement is rolled back as a whole
    ([None]). *)
Fixpoint sql_insert (rows : list Row) (batch : list Row) : option (list Row) :=
  match batch with
  | [] => Some rows
  | r :: rest =>
      if pk_present rows (pk r) then None
      else sql_insert (rows ++ [r]) rest
  end.

(** The aggregate [MAX] over TEXT values: NULL ([None]) on no rows. *)
Definition sql_max (l : list pystr) : option pystr :=
  fold_left
    (fun acc s =>
       match acc with
       | None => Some s
       | Some m => if str_ltb m s then Some s else Some m
       end)
    l None.

(** [SELECT MAX(<timestamp column>) FROM t WHERE ts_code = ?] *)
Definition select_max_date (s : Store) (t : Table) (code : pystr) : option pystr :=
  sql_max (map trade_date (filter (fun r => str_eqb (ts_code r) code) (table_rows s t))).

End Data.

Arguments Bar : clear implicits.
Arguments FrameRow : clear implicits.
Arguments DataFrame : clear implicits.
Arguments Row : clear implicits.
Arguments Store : clear implicits.

(* ===================================================================== *)
(** ** Exceptions and effects *)
(* ===================================================================== *)

(** The exceptions that occur: whatever the provider's client raises,
    SQLite's UNIQUE-constraint failure as SQLAlchemy reports it, and
    tenacity's [RetryError], which wraps the outcome of the last attempt. *)
Inductive exn : Type :=
| ProviderError (detail : pystr)
| IntegrityError
| RetryError (last_attempt : exn).

(** The outcome of a call: a value, or an exception raised. *)
Inductive result (A : Type) : Type :=
| Ok (a : A)
| Raise (e : exn).

Arguments Ok {A} a.
Arguments Raise {A} e.

(** The two AKShare entry points the downloader calls, with their keyword
    arguments. *)
Inductive ak_call : Type :=
| stock_zh_a_hist (symbol period start_date end_date : pystr)
| stock_zh_a_hist_min_em (symbol period start_date end_date : pystr).

(** What the program prints. *)
Inductive message : Type :=
| FailedToDownload (code : pystr) (exc : exn)
| FailedSymbol (symbol : pystr) (exc : exn).

Section Effects.

Context {REAL : Type}.

(** The operations on the outside world, each one atomic: a query or an
    insert statement in its own transaction, one call of the provider,
    [time.sleep], [print], and [pbar.update] under the lock. *)
Inductive op : Type :=
| SelectMax (table : Table) (code : pystr)
| Upstream (call : ak_call)
| ToSql (table : Table) (rows : list (Row REAL))
| Sleep (seconds : Q)
| Print (m : message)
| PbarUpdate (n : Z).

(** What each operation answers. *)
Definition resp (o : op) : Type :=
  match o with
  | SelectMax _ _ => option pystr
  | Upstream _ => result (DataFrame REAL)
  | ToSql _ _ => result unit
  | Sleep _ | Print _ | PbarUpdate _ => unit
  end.

(** A computation: it returns, raises, or performs an operation and goes
    on with the answer. *)
Inductive prog (A : Type) : Type :=
| Ret (a : A)
| Throw (e : exn)
| Vis (o : op) (k : resp o -> prog A).

Arguments Ret {A} a.
Arguments Throw {A} e.
Arguments Vis {A} o k.

Fixpoint bind {A B : Type} (p : prog A) (f : A -> prog B) : prog B :=
  match p with
  | Ret a => f a
  | Throw e => Throw e
  | Vis o k => Vis o (fun r => bind (k r) f)
  end.

(** [try: p  except Exception as exc: h exc] *)
Fixpoint try_except {A : Type} (p : prog A) (h : exn -> prog A) : prog A :=
  match p with
  | Ret a => Ret a
  | Throw e => h e
  | Vis o k => Vis o (fun r => try_except (k r) h)
  end.

(** [try: p  finally: fin]: [fin] runs on both ways out of [p]. *)
Fixpoint try_finally {A : Type} (p : prog A) (fin : prog unit) : prog A :=
  match p with
  | Ret a => bind fin (fun _ => Ret a)
  | Throw e => bind fin (fun _ => Throw e)
  | Vis o k => Vis o (fun r => try_finally (k r) fin)
  end.

(** One way through a computation: the operations performed, for some
    answers to them, and how it ends. *)
Fixpoint path {A : Type} (p : prog A) (ops : list op) (res : result A) : Prop :=
  match p with
  | Ret a => ops = [] /\ res = Ok a
  | Throw e => ops = [] /\ res = Raise e
  | Vis o k => exists (r : resp o) (ops' : list op), ops = o :: ops' /\ path (k r) ops' res
  end.

(** Turning the answer of an operation that may raise into control flow. *)
Definition of_result {A : Type} (r : result A) : prog A :=
  match r with
  | Ok a => Ret a
  | Raise e => Throw e
  end.

Definition select_max (table : Table) (code : pystr) : prog (option pystr) :=
  Vis (SelectMax table code) (fun r => Ret r).

Definition upstream (call : ak_call) : prog (DataFrame REAL) :=
  Vis (Upstream call) of_result.

Definition to_sql (table : Table) (rows : list (Row REAL)) : prog unit :=
  Vis (ToSql table rows) of_result.

Definition time_sleep (seconds : Q) : prog unit :=
  Vis (Sleep seconds) (fun _ => Ret tt).

Definition print (m : message) : prog unit :=
  Vis (Print m) (fun _ => Ret tt).

Definition pbar_update (n : Z) : prog unit :=
  Vis (PbarUpdate n) (fun _ => Ret tt).

End Effects.

Arguments op : clear implicits.
Arguments prog : clear implicits.
Arguments Ret {REAL A} a.
Arguments Throw {REAL A} e.
Arguments Vis {REAL A} o k.

Declare Scope prog_scope.
Delimit Scope prog_scope with prog.
Notation "x <- c1 ;; c2" := (bind c1 (fun x => c2))
  (at level 61, c1 at next level, right associativity) : prog_scope.
Notation "c1 ;; c2" := (bind c1 (fun _ => c2))
  (at level 61, right associativity) : prog_scope.

(* ===================================================================== *)
(** ** The world and the sequential execution of a computation *)
(* ===================================================================== *)

Section World.

Context {REAL U : Type}.

(** The provider: a state of its own (the data it holds, how often it was
    called, ...) and its answer to each call. *)
Variable ak : U -> ak_call -> result (DataFrame REAL) * U.

(** The database, the provider's state, and the operations performed so
    far, oldest first. *)
Record World : Type := mkWorld {
  db : Store REAL;
  up : U;
  trace : list (op REAL)
}.

(** The effect of one operation on the database and the provider, and its
    answer. *)
Definition exec (o : op REAL) (w : World) : resp o * (Store REAL * U) :=
  match o return resp o * (Store REAL * U) with
  | SelectMax t code => (select_max_date (db w) t code, (db w, up w))
  | Upstream call =>
      let (r, u') := ak (up w) call in (r, (db w, u'))
  | ToSql t rows =>
      match sql_insert (table_rows (db w) t) rows with
      | Some rows' => (Ok tt, (set_table (db w) t rows', up w))
      | None => (Raise IntegrityError, (db w, up w))
      end
  | Sleep _ => (tt, (db w, up w))
  | Print _ => (tt, (db w, up w))
  | PbarUpdate _ => (tt, (db w, up w))
  end.

(** One operation performed: its effect, and its record in the trace. *)
Definition step (o : op REAL) (w : World) : resp o * World :=
  let (r, s) := exec o w in
  (r, mkWorld (fst s) (snd s) (trace w ++ [o])).

(** The world after one call of the provider, and after a sleep. *)
Definition after_call (c : ak_call) (w : World) : World :=
  mkWorld (db w) (snd (ak (up w) c)) (trace w ++ [Upstream c]).

Definition after_sleep (s : Q) (w : World) : World :=
  mkWorld (db w) (up w) (trace w ++ [Sleep s]).

(** The world after the query of [get_last_date]. *)
Definition after_select (t : Table) (code : pystr) (w : World) : World :=
  mkWorld (db w) (up w) (trace w ++ [SelectMax t code]).

(** A computation run to its end by one thread. *)
Fixpoint run {A : Type} (p : prog REAL A) (w : World) : result A * World :=
  match p with
  | Ret a => (Ok a, w)
  | Throw e => (Raise e, w)
  | Vis o k => let (r, w') := step o w in run (k r) w'
  end.

End World.

Arguments World : clear implicits.

(* ===================================================================== *)
(** ** akshare_downloader.py *)
(* ===================================================================== *)

Section Downloader.

Context {REAL : Type}.

Local Open Scope prog_scope.

Definition MAX_THREADS : Z := 300.
Definition DEFAULT_SLEEP : Q := (1 # 2)%Q.

(** The command line after [parse_args]. *)
Record Namespace : Type := mkNamespace {
  arg_codes : list pystr;
  arg_start : pystr;
  arg_end : pystr;
  arg_threads : Z;
  arg_sleep : Q
}.

(** [get_last_date]: the first column of the query's only line, or [None]
    when it is NULL or falsy.  [date_col] is the table's timestamp column
    at every call. *)
Definition get_last_date (table : Table) (ts_code date_col : pystr)
  : prog REAL (option pystr) :=
  result <- select_max table ts_code ;;
  Ret (match result with
       | Some d => if truthy d then Some d else None
       | None => None
       end).

(** tenacity's [@retry(wait=wait_fixed(w), stop=stop_after_attempt(n))]
    around [fn]: an attempt that raises is followed, when it was not yet
    attempt number [n], by a sleep of [w] seconds and the next attempt;
    when it was, [RetryError] is raised from the attempt's exception.
    [attempts_left] counts the attempt being made. *)
Fixpoint retry {A : Type} (wait_fixed : Q) (attempts_left : nat)
    (fn : prog REAL A) : prog REAL A :=
  try_except fn
    (fun exc =>
       match attempts_left with
       | S (S _ as left') => time_sleep wait_fixed ;; retry wait_fixed left' fn
       | _ => Throw (RetryError exc)
       end).

Definition fetch_daily (code start end_ : pystr) : prog REAL (DataFrame REAL) :=
  retry 2 3 (upstream (stock_zh_a_hist code (str "daily") start end_)).

Definition fetch_weekly (code start end_ : pystr) : prog REAL (DataFrame REAL) :=
  retry 2 3 (upstream (stock_zh_a_hist code (str "weekly") start end_)).

Definition fetch_minute (code start end_ : pystr) : prog REAL (DataFrame REAL) :=
  retry 2 3 (upstream (stock_zh_a_hist_min_em code (str "1") start end_)).

(** [df.insert(0, "ts_code", ts_code)]: every line gets the code as its
    first column. *)
Definition df_insert_ts_code (code : pystr) (df : DataFrame REAL) : list (Row REAL) :=
  map (fun r => mkRow code (fr_date r) (fr_bar r)) df.

(** [append_data]; [date_col] is not used by the source either. *)
Definition append_data (table : Table) (df : DataFrame REAL) (ts_code date_col : pystr)
  : prog REAL unit :=
  if df_empty df then Ret tt
  else to_sql table (df_insert_ts_code ts_code df).

(** [x if x else start] for the result of [get_last_date]. *)
Definition or_start (last : option pystr) (start : pystr) : pystr :=
  match last with
  | Some d => if truthy d then d else start
  | None => start
  end.

Definition download_stock (code start end_ : pystr) (sleep_time : Q) : prog REAL unit :=
  last_daily <- get_last_date daily code (str "trade_date") ;;
  let sd := or_start last_daily start in
  df_daily <- fetch_daily code sd end_ ;;
  append_data daily df_daily code (str "trade_date") ;;
  time_sleep sleep_time ;;

  last_weekly <- get_last_date weekly code (str "trade_date") ;;
  let sw := or_start last_weekly start in
  df_weekly <- fetch_weekly code sw end_ ;;
  append_data weekly df_weekly code (str "trade_date") ;;
  time_sleep sleep_time ;;

  last_min <- get_last_date minute code (str "datetime") ;;
  let sm := or_start last_min start in
  df_min <- fetch_minute code sm end_ ;;
  append_data minute df_min code (str "datetime") ;;
  time_sleep sleep_time.

(** [main]'s [thread_count]. *)
Definition thread_count (args : Namespace) : Z :=
  Z.max 1 (Z.min MAX_THREADS (arg_threads args)).

(** [main]'s inner function [task]. *)
Definition task (args : Namespace) (code : pystr) : prog REAL unit :=
  try_finally
    (try_except
       (download_stock code (arg_start args) (arg_end args) (arg_sleep args))
       (fun exc => print (FailedToDownload code exc)))
    (pbar_update 1).

End Downloader.

(* ===================================================================== *)
(** ** The thread pool of [main] *)
(* ===================================================================== *)

Section ThreadPool.

Context {REAL U : Type}.
Variable ak : U -> ak_call -> result (DataFrame REAL) * U.

(** A [ThreadPoolExecutor] at work: the codes submitted and not yet taken
    by a worker (first in, first out), the work items the workers are in
    the middle of, each with the code it was submitted for and what is
    left of its [task], and the world they share. *)
Record Pool : Type := mkPool {
  pending : list pystr;
  running : list (pystr * prog REAL unit);
  world : World REAL U
}.

(** One move of the pool.  A free worker takes the next pending code and
    starts its [task]; some worker performs the next operation of its task;
    a task that has returned or raised is over (its outcome goes to the
    [Future], which [main] never reads) and its worker is free again.
    Which move comes next is the scheduler's choice. *)
Inductive pool_step (args : Namespace) : Pool -> Pool -> Prop :=
| pool_start (code : pystr) (q : list pystr) (ts : list (pystr * prog REAL unit))
    (w : World REAL U) :
    (Z.of_nat (length ts) < thread_count args)%Z ->
    pool_step args (mkPool (code :: q) ts w) (mkPool q (ts ++ [(code, task args code)]) w)
| pool_op (q : list pystr) (l1 l2 : list (pystr * prog REAL unit)) (code : pystr)
    (o : op REAL) (k : resp o -> prog REAL unit) (r : resp o) (w w' : World REAL U) :
    step ak o w = (r, w') ->
    pool_step args (mkPool q (l1 ++ (code, Vis o k) :: l2) w)
      (mkPool q (l1 ++ (code, k r) :: l2) w')
| pool_returned (q : list pystr) (l1 l2 : list (pystr * prog REAL unit)) (code : pystr)
    (w : World REAL U) :
    pool_step args (mkPool q (l1 ++ (code, Ret tt) :: l2) w) (mkPool q (l1 ++ l2) w)
| pool_raised (q : list pystr) (l1 l2 : list (pystr * prog REAL unit)) (code : pystr)
    (e : exn) (w : World REAL U) :
    pool_step args (mkPool q (l1 ++ (code, Throw e) :: l2) w) (mkPool q (l1 ++ l2) w).

(** [n] moves in a row. *)
Inductive pool_steps (args : Namespace) : nat -> Pool -> Pool -> Prop :=
| pool_steps_O (p : Pool) : pool_steps args 0 p p
| pool_steps_S (n : nat) (p1 p2 p3 : Pool) :
    pool_step args p1 p2 -> pool_steps args n p2 p3 -> pool_steps args (S n) p1 p3.

(** All codes submitted, no worker started yet. *)
Definition pool_init (args : Namespace) (w : World REAL U) : Pool :=
  mkPool (arg_codes args) [] w.

(** Nothing pending and nothing running: [pool.shutdown(wait=True)]
    returns. *)
Definition pool_idle (p : Pool) : Prop :=
  pending p = [] /\ running p = [].


(** The schedule of a single worker: the tasks one after the other, each
    run to its end, in the order of submission. *)
Definition run_tasks (args : Namespace) (codes : list pystr) (w : World REAL U)
  : World REAL U :=
  fold_left (fun w code => snd (run ak (task args code) w)) codes w.

End ThreadPool.

Arguments Pool : clear implicits.

(* ===================================================================== *)
(** ** flask_app.py *)
(* ===================================================================== *)

Section FlaskApp.

Context {REAL : Type}.

(** The two tables of the Unicode database that [str.isdigit] and
    [str.strip] consult, by code point. *)
Variable unicode_isdigit : N -> bool.
Variable unicode_isspace : N -> bool.

Local Open Scope prog_scope.

Fixpoint lstrip (s : pystr) : pystr :=
  match s with
  | [] => []
  | c :: s' => if unicode_isspace c then lstrip s' else s
  end.

Definition rstrip (s : pystr) : pystr := rev (lstrip (rev s)).

(** [s.strip()] *)
Definition strip (s : pystr) : pystr := rstrip (lstrip s).

(** [s.isdigit()]: at least one character, and all of them digits. *)
Definition isdigit (s : pystr) : bool :=
  match s with
  | [] => false
  | _ :: _ => forallb unicode_isdigit s
  end.

(** [s.startswith(prefix)] *)
Fixpoint startswith (s prefix : pystr) : bool :=
  match prefix, s with
  | [], _ => true
  | _ :: _, [] => false
  | p :: prefix', c :: s' => N.eqb c p && startswith s' prefix'
  end.

(** [s.zfill(width)]: zeros on the left up to [width] characters, put
    after a leading sign. *)
Definition zfill (s : pystr) (width : nat) : pystr :=
  let fill := repeat (ord "0") (width - length s) in
  match s with
  | c :: s' =>
      if N.eqb c (ord "+") || N.eqb c (ord "-")
      then c :: fill ++ s'
      else fill ++ s
  | [] => fill
  end.

Definition adapt_code (code : pystr) : pystr :=
  let code := strip code in
  if negb (isdigit code) then str ""
  else
    let prefix := if startswith code (str "6") then str "sh" else str "sz" in
    prefix ++ zfill code 6.

(** The body of [download]'s loop over [codes] and what it leaves in
    [downloaded]. *)
Fixpoint download_loop (codes : list pystr) (start end_ : pystr)
    (downloaded : list pystr) : prog REAL (list pystr) :=
  match codes with
  | [] => Ret downloaded
  | c :: rest =>
      let symbol := adapt_code c in
      if negb (truthy symbol) then download_loop rest start end_ downloaded
      else
        downloaded' <-
          try_except
            (download_stock symbol start end_ DEFAULT_SLEEP ;;
             Ret (downloaded ++ [symbol]))
            (fun exc => print (FailedSymbol symbol exc) ;; Ret downloaded) ;;
        download_loop rest start end_ downloaded'
  end.

(** The two answers of the [/download] route. *)
Inductive reply : Type :=
| DownloadedStocks (n : nat)
| NoValidCodes.

(** [download] from line 58 on: [codes] is the list built from the form
    and the uploaded file. *)
Definition download (codes : list pystr) (start end_ : pystr) : prog REAL reply :=
  downloaded <- download_loop codes start end_ [] ;;
  Ret (match downloaded with
       | [] => NoValidCodes
       | _ :: _ => DownloadedStocks (length downloaded)
       end).

End FlaskApp.

(* ===================================================================== *)
(** ** Test doubles: providers and worlds for concrete runs *)
(* ===================================================================== *)

(** The table a call of the provider is for. *)
Definition call_table (c : ak_call) : option Table :=
  match c with
  | stock_zh_a_hist _ period _ _ =>
      if str_eqb period (str "daily") then Some daily
      else if str_eqb period (str "weekly") then Some weekly
      else None
  | stock_zh_a_hist_min_em _ _ _ _ => Some minute
  end.

Definition call_symbol (c : ak_call) : pystr :=
  match c with
  | stock_zh_a_hist symbol _ _ _ | stock_zh_a_hist_min_em symbol _ _ _ => symbol
  end.

Definition call_start (c : ak_call) : pystr :=
  match c with
  | stock_zh_a_hist _ _ start_date _ | stock_zh_a_hist_min_em _ _ start_date _ => start_date
  end.

Definition call_end (c : ak_call) : pystr :=
  match c with
  | stock_zh_a_hist _ _ _ end_date | stock_zh_a_hist_min_em _ _ _ end_date => end_date
  end.

(** A provider without state that holds a fixed history per table and
    symbol (or fails for it) and answers a call with the lines dated from
    [start_date] to [end_date], both included. *)
Definition inclusive_provider {REAL : Type}
    (history : Table -> pystr -> result (DataFrame REAL))
    (u : unit) (c : ak_call) : result (DataFrame REAL) * unit :=
  (match call_table c with
   | Some t =>
       match history t (call_symbol c) with
       | Ok df =>
           Ok (filter (fun r => str_leb (call_start c) (fr_date r)
                                && str_leb (fr_date r) (call_end c)) df)
       | Raise e => Raise e
       end
   | None => Raise (ProviderError (str "period"))
   end, u).

(** A provider that raises on its first [failures] calls and answers [df]
    from then on; its state counts the calls made. *)
Definition flaky_provider {REAL : Type} (failures : nat) (df : DataFrame REAL)
    (calls : nat) (c : ak_call) : result (DataFrame REAL) * nat :=
  (if calls <? failures then Raise (ProviderError (str "timeout")) else Ok df,
   S calls).

(** A line with all six values equal to [v]. *)
Definition flat_line (date : pystr) (v : Z) : FrameRow Z :=
  mkFrameRow date (mkBar v v v v v v).

(** A new database file and nothing done yet. *)
Definition fresh_world {U : Type} (u : U) : World Z U :=
  mkWorld init_db u [].

(** A provider that answers every call with the same frame. *)
Definition constant_provider {REAL : Type} (df : DataFrame REAL)
    (u : unit) (c : ak_call) : result (DataFrame REAL) * unit :=
  (Ok df, u).

Definition code_a : pystr := str "sz000001".
Definition code_b : pystr := str "sh600036".
Definition start_2020 : pystr := str "20200101".
Definition end_jan_2020 : pystr := str "20200131".
Definition jan_2 : pystr := str "20200102".

(** One daily line on 2 January 2020 for every symbol, nothing else. *)
Definition history_one_day (t : Table) (symbol : pystr) : result (DataFrame Z) :=
  match t with
  | daily => Ok [flat_line jan_2 10%Z]
  | weekly | minute => Ok []
  end.

(** For [code_a] the weekly history always fails; every symbol has one
    daily line and one minute line. *)
Definition history_weekly_fails (t : Table) (symbol : pystr) : result (DataFrame Z) :=
  match t with
  | daily => Ok [flat_line jan_2 10%Z]
  | weekly =>
      if str_eqb symbol code_a then Raise (ProviderError (str "weekly"))
      else Ok [flat_line jan_2 11%Z]
  | minute => Ok [flat_line (str "20200102 09:31") 12%Z]
  end.

(** A database that holds the daily line of 2 January for [code_a]. *)
Definition world_one_day : World Z unit :=
  mkWorld (mkStore [mkRow code_a jan_2 (mkBar 10 10 10 10 10 10)%Z] [] []) tt [].

(** A database whose only daily row for [code_a] has the empty string as
    its timestamp. *)
Definition world_empty_date : World Z unit :=
  mkWorld (mkStore [mkRow code_a [] (mkBar 10 10 10 10 10 10)%Z] [] []) tt [].

Definition args_ab : Namespace :=
  mkNamespace [code_a; code_b] start_2020 end_jan_2020 4%Z (1 # 2)%Q.

(** [str.isdigit] and [str.isspace] on ASCII. *)
Definition ascii_isdigit (c : N) : bool := (48 <=? c)%N && (c <=? 57)%N.

Definition ascii_isspace (c : N) : bool :=
  ((9 <=? c)%N && (c <=? 13)%N) || (c =? 32)%N.

(** The two codes again, for a single worker; a third code; the day after
    [jan_2]. *)
Definition args_one_worker : Namespace :=
  mkNamespace [code_a; code_b] start_2020 end_jan_2020 1%Z (1 # 2)%Q.

Definition code_c : pystr := str "sz000002".
Definition jan_3 : pystr := str "20200103".

(* ===================================================================== *)
(** ** Vocabulary of the statements *)
(* ===================================================================== *)

Section Vocabulary.

Context {REAL : Type}.

Local Open Scope prog_scope.

(** The wrapped fetch of each series kind, the provider call it makes and
    the table it feeds. *)
Definition fetch_of (t : Table) : pystr -> pystr -> pystr -> prog REAL (DataFrame REAL) :=
  match t with
  | daily => fetch_daily
  | weekly => fetch_weekly
  | minute => fetch_minute
  end.

Definition fetch_call (t : Table) (code start end_ : pystr) : ak_call :=
  match t with
  | daily => stock_zh_a_hist code (str "daily") start end_
  | weekly => stock_zh_a_hist code (str "weekly") start end_
  | minute => stock_zh_a_hist_min_em code (str "1") start end_
  end.

(** One of the three paragraphs of [download_stock], for the table [t],
    followed by [rest]. *)
Definition sync_kind_then {A : Type} (t : Table) (code start end_ : pystr)
    (sleep_time : Q) (rest : prog REAL A) : prog REAL A :=
  last <- get_last_date t code (date_column t) ;;
  let s := or_start last start in
  df <- fetch_of t code s end_ ;;
  append_data t df code (date_column t) ;;
  time_sleep sleep_time ;;
  rest.

Definition sync_kind (t : Table) (code start end_ : pystr) (sleep_time : Q)
  : prog REAL unit :=
  sync_kind_then t code start end_ sleep_time (Ret tt).

(** The timestamps stored for a code in a table. *)
Definition stored_dates (s : Store REAL) (t : Table) (code : pystr) : list pystr :=
  map trade_date (filter (fun r => str_eqb (ts_code r) code) (table_rows s t)).

(** [T] is the greatest timestamp stored for the code in the table. *)
Definition is_last_stored (s : Store REAL) (t : Table) (code T : pystr) : Prop :=
  In T (stored_dates s t code) /\
  forall d, In d (stored_dates s t code) -> str_leb d T = true.

(** The start of the fetch window of [download_stock] for a table, from
    the store it finds. *)
Definition effective_start (s : Store REAL) (t : Table) (code start : pystr) : pystr :=
  or_start (select_max_date s t code) start.



(** The stored row with a given key, if any (the first one). *)
Definition lookup_row (rows : list (Row REAL)) (k : pystr * pystr) : option (Row REAL) :=
  find (fun r => pk_eqb (pk r) k) rows.

Definition is_ok {A : Type} (r : result A) : bool :=
  match r with
  | Ok _ => true
  | Raise _ => false
  end.

(** The codes an operation is about. *)
Definition op_codes (o : op REAL) : list pystr :=
  match o with
  | SelectMax _ code => [code]
  | Upstream c => [call_symbol c]
  | ToSql _ rows => map ts_code rows
  | Sleep _ | Print _ | PbarUpdate _ => []
  end.

(** The table an operation reads, asks the provider about, or writes. *)
Definition op_table (o : op REAL) : option Table :=
  match o with
  | SelectMax t _ => Some t
  | Upstream c => call_table c
  | ToSql t _ => Some t
  | Sleep _ | Print _ | PbarUpdate _ => None
  end.

(** The operation is about no other code than [code]. *)
Definition about (code : pystr) (o : op REAL) : Prop :=
  forall x, In x (op_codes o) -> x = code.

(** Every way through the computation has at most [n] operations, and
    all of them satisfy [P]. *)
Definition within {A : Type} (n : nat) (P : op REAL -> Prop) (q : prog REAL A) : Prop :=
  forall ops res, path q ops res -> (length ops <= n)%nat /\ Forall P ops.

(** An answer to each operation. *)
Definition some_answer (o : op REAL) : resp o :=
  match o return resp o with
  | SelectMax _ _ => None
  | Upstream _ => Ok []
  | ToSql _ _ => Ok tt
  | Sleep _ | Print _ | PbarUpdate _ => tt
  end.




Definition is_insert (o : op REAL) : bool :=
  match o with
  | ToSql _ _ => true
  | _ => false
  end.

Definition is_pbar_update (o : op REAL) : bool :=
  match o with
  | PbarUpdate _ => true
  | _ => false
  end.

(** The operations of [download_stock]: about its code, and none of
    them on the progress bar. *)
Definition sync_op (code : pystr) (o : op REAL) : Prop :=
  about code o /\ is_pbar_update o = false.


(** The rows stored for a code, table by table, and two stores that hold
    the same rows for it. *)
Definition rows_of (code : pystr) (s : Store REAL) (t : Table) : list (Row REAL) :=
  filter (fun r => str_eqb (ts_code r) code) (table_rows s t).

Definition same_rows (code : pystr) (s s' : Store REAL) : Prop :=
  forall t, rows_of code s t = rows_of code s' t.


End Vocabulary.

Section FlaskVocabulary.

Context {REAL : Type}.
Variable unicode_isdigit : N -> bool.
Variable unicode_isspace : N -> bool.

(** The operations of [download]: each code they mention is the
    normalisation of one of the codes given, and is not empty. *)
Definition normalised_op (codes : list pystr) (o : op REAL) : Prop :=
  forall x, In x (op_codes o) ->
    x <> [] /\
    exists c, In c codes /\ x = adapt_code unicode_isdigit unicode_isspace c.

End FlaskVocabulary.

Section Traces.

Context {REAL U : Type}.
Variable ak : U -> ak_call -> result (DataFrame REAL) * U.

(** The provider, in some state, answers the call with the frame. *)
Definition answered (c : ak_call) (df : DataFrame REAL) : Prop :=
  exists u, fst (ak u c) = Ok df.

(** The operations of one wrapped fetch: one to three calls of the
    provider, a sleep of 2 seconds between two of them. *)
Inductive fetch_ops (c : ak_call) : list (op REAL) -> Prop :=
| fetch_ops_1 : fetch_ops c [Upstream c]
| fetch_ops_2 : fetch_ops c [Upstream c; Sleep 2; Upstream c]
| fetch_ops_3 : fetch_ops c [Upstream c; Sleep 2; Upstream c; Sleep 2; Upstream c].

(** The operations of the paragraph of [download_stock] for the table
    [t], on the store [s], and whether it came to its end: the query for
    the last date, then the wrapped fetch from the effective start, then
    the insert of the frame the provider answered, tagged with the code,
    when it has lines, then the pause.  The paragraph stops early when
    the fetch or the insert raises. *)
Inductive kind_ops (s : Store REAL) (code start end_ : pystr) (sleep_time : Q)
    (t : Table) : bool -> list (op REAL) -> Prop :=
| kind_fetch_raised (f : list (op REAL)) :
    fetch_ops (fetch_call t code (effective_start s t code start) end_) f ->
    kind_ops s code start end_ sleep_time t false (SelectMax t code :: f)
| kind_nothing_new (f : list (op REAL)) :
    fetch_ops (fetch_call t code (effective_start s t code start) end_) f ->
    kind_ops s code start end_ sleep_time t true
      (SelectMax t code :: f ++ [Sleep sleep_time])
| kind_written (f : list (op REAL)) (df : DataFrame REAL) :
    fetch_ops (fetch_call t code (effective_start s t code start) end_) f ->
    answered (fetch_call t code (effective_start s t code start) end_) df ->
    df_empty df = false ->
    kind_ops s code start end_ sleep_time t true
      (SelectMax t code :: f ++ [ToSql t (df_insert_ts_code code df); Sleep sleep_time])
| kind_insert_raised (f : list (op REAL)) (df : DataFrame REAL) :
    fetch_ops (fetch_call t code (effective_start s t code start) end_) f ->
    answered (fetch_call t code (effective_start s t code start) end_) df ->
    df_empty df = false ->
    kind_ops s code start end_ sleep_time t false
      (SelectMax t code :: f ++ [ToSql t (df_insert_ts_code code df)]).

(** The operations of the paragraphs for the tables [ts], in this order:
    each paragraph that comes to its end is followed by the next one, and
    one that stops early ends the whole. *)
Inductive kinds_ops (s : Store REAL) (code start end_ : pystr) (sleep_time : Q)
  : list Table -> bool -> list (op REAL) -> Prop :=
| kinds_done : kinds_ops s code start end_ sleep_time [] true []
| kinds_stop (t : Table) (ts : list Table) (o : list (op REAL)) :
    kind_ops s code start end_ sleep_time t false o ->
    kinds_ops s code start end_ sleep_time (t :: ts) false o
| kinds_next (t : Table) (ts : list Table) (b : bool) (o os : list (op REAL)) :
    kind_ops s code start end_ sleep_time t true o ->
    kinds_ops s code start end_ sleep_time ts b os ->
    kinds_ops s code start end_ sleep_time (t :: ts) b (o ++ os).

(** The provider's answer to a call does not depend on its state, that
    is, on the calls made before. *)
Definition stateless : Prop :=
  forall u u' c, fst (ak u c) = fst (ak u' c).

(** The pool as seen from the code [B], submitted once, in a run of
    [main] from [w0].  Every running task is about the code it was
    submitted for.  As long as [B] is pending, the rows stored for it are
    those of [w0]; while its task is running, what is left of the task,
    run on its own from some world with the same rows for [B], ends with
    the rows that [task] alone ends with from [w0]; once it is over, these
    are the rows stored. *)
Definition iso_inv (args : Namespace) (B : pystr) (w0 : World REAL U)
    (P : Pool REAL U) : Prop :=
  (forall c q, In (c, q) (running P) -> exists d, within d (about c) q) /\
  let nb := count_occ (list_eq_dec N.eq_dec) (map fst (running P)) B in
  let np := count_occ (list_eq_dec N.eq_dec) (pending P) B in
  let final := db (snd (run ak (task args B) w0)) in
  (np = 1%nat /\ nb = 0%nat /\ same_rows B (db (world P)) (db w0)) \/
  (np = 0%nat /\ nb = 1%nat /\
   forall q, In (B, q) (running P) ->
     exists ws, same_rows B (db (world P)) (db ws) /\
                same_rows B (db (snd (run ak q ws))) final) \/
  (np = 0%nat /\ nb = 0%nat /\ same_rows B (db (world P)) final).


End Traces.

(* ===================================================================== *)
(** ** Further vocabulary: counting operations, the pool's codes *)
(* ===================================================================== *)

Section Counting.

Context {REAL : Type}.

Definition is_call (o : op REAL) : bool :=
  match o with
  | Upstream _ => true
  | _ => false
  end.

Definition is_query (o : op REAL) : bool :=
  match o with
  | SelectMax _ _ => true
  | _ => false
  end.

Definition is_failed_symbol (o : op REAL) : bool :=
  match o with
  | Print (FailedSymbol _ _) => true
  | _ => false
  end.

(** How many operations of a kind there are. *)
Definition count_ops (f : op REAL -> bool) (ops : list (op REAL)) : nat :=
  length (filter f ops).

(** The seconds slept by the operations, added up. *)
Fixpoint slept (ops : list (op REAL)) : Q :=
  match ops with
  | [] => 0
  | Sleep s :: ops' => s + slept ops'
  | _ :: ops' => slept ops'
  end.

(** The codes that [download] hands to [download_stock]: the
    normalisations that are not empty. *)
Definition valid_symbols (unicode_isdigit unicode_isspace : N -> bool)
    (codes : list pystr) : list pystr :=
  filter truthy (map (adapt_code unicode_isdigit unicode_isspace) codes).

End Counting.

Section PoolVocabulary.

Context {REAL U : Type}.
Variable ak : U -> ak_call -> result (DataFrame REAL) * U.

(** Every code the pool holds, pending or running, is one of [codes], and
    what is left of a running task is about its own code. *)
Definition pool_codes_ok (codes : list pystr) (P : Pool REAL U) : Prop :=
  (forall c, In c (pending P) -> In c codes) /\
  (forall c q, In (c, q) (running P) ->
     In c codes /\ exists d, within d (about c) q).

(** With a single worker: the world the pool will end in, when what is
    left of the running task, then the pending tasks, are run in a row. *)
Definition single_worker_end (args : Namespace) (P : Pool REAL U) : World REAL U :=
  match running P with
  | [] => run_tasks ak args (pending P) (world P)
  | (_, q) :: _ => run_tasks ak args (pending P) (snd (run ak q (world P)))
  end.

(** The provider answers as the one that holds [history] and serves date
    windows with both ends included, whatever was called before. *)
Definition date_inclusive (history : Table -> pystr -> result (DataFrame REAL)) : Prop :=
  forall u c, fst (ak u c) = fst (inclusive_provider history tt c).

End PoolVocabulary.
(* ===================================================================== *)
(** ** Properties: running composed computations *)
(* ===================================================================== *)

Section Properties.

Context {REAL U : Type}.
Variable ak : U -> ak_call -> result (DataFrame REAL) * U.


Lemma run_bind {A B : Type} (p : prog REAL A) (f : A -> prog REAL B) (w : World REAL U) :
  run ak (bind p f) w =
  match run ak p w with
  | (Ok a, w') => run ak (f a) w'
  | (Raise e, w') => (Raise e, w')
  end.
Proof.
  revert w. induction p as [a | e | o k IH]; intros w; simpl.
  - reflexivity.
  - reflexivity.
  - destruct (step ak o w) as [r w']. apply IH.
Qed.

Lemma run_try_except {A : Type} (p : prog REAL A) (h : exn -> prog REAL A) (w : World REAL U) :
  run ak (try_except p h) w =
  match run ak p w with
  | (Ok a, w') => (Ok a, w')
  | (Raise e, w') => run ak (h e) w'
  end.
Proof.
  revert w. induction p as [a | e | o k IH]; intros w; simpl.
  - reflexivity.
  - reflexivity.
  - destruct (step ak o w) as [r w']. apply IH.
Qed.

Lemma run_try_finally {A : Type} (p : prog REAL A) (fin : prog REAL unit) (w : World REAL U) :
  run ak (try_finally p fin) w =
  match run ak p w with
  | (Ok a, w') =>
      match run ak fin w' with
      | (Ok _, w'') => (Ok a, w'')
      | (Raise e, w'') => (Raise e, w'')
      end
  | (Raise e, w') =>
      match run ak fin w' with
      | (Ok _, w'') => (Raise e, w'')
      | (Raise e', w'') => (Raise e', w'')
      end
  end.
Proof.
  revert w. induction p as [a | e | o k IH]; intros w; simpl.
  - rewrite run_bind. destruct (run ak fin w) as [[u | e'] w'']; reflexivity.
  - rewrite run_bind. destruct (run ak fin w) as [[u | e'] w'']; reflexivity.
  - destruct (step ak o w) as [r w']. apply IH.
Qed.

(** The operations that are not inserts leave the database as it is. *)
Lemma step_db (o : op REAL) (w : World REAL U) :
  (forall t rows, o <> ToSql t rows) -> db (snd (step ak o w)) = db w.
Proof.
  intros Hne. unfold step.
  destruct o as [t c | c | t rows | s | m | n]; simpl; try reflexivity.
  - destruct (ak (up w) c); reflexivity.
  - exfalso. apply (Hne t rows). reflexivity.
Qed.

Lemma step_trace (o : op REAL) (w : World REAL U) :
  trace (snd (step ak o w)) = trace w ++ [o].
Proof.
  unfold step. destruct (exec ak o w) as [r s]. reflexivity.
Qed.



(* --------------------------------------------------------------------- *)
(** *** The operations one by one *)

Lemma step_select_max (t : Table) (code : pystr) (w : World REAL U) :
  step ak (SelectMax t code) w =
  (select_max_date (db w) t code, mkWorld (db w) (up w) (trace w ++ [SelectMax t code])).
Proof. reflexivity. Qed.

Lemma step_upstream (c : ak_call) (w : World REAL U) :
  step ak (Upstream c) w =
  (fst (ak (up w) c), mkWorld (db w) (snd (ak (up w) c)) (trace w ++ [Upstream c])).
Proof. unfold step, exec. destruct (ak (up w) c). reflexivity. Qed.


Lemma step_to_sql (t : Table) (rows : list (Row REAL)) (w : World REAL U) :
  step ak (ToSql t rows) w =
  match sql_insert (table_rows (db w) t) rows with
  | Some rows' =>
      (Ok tt, mkWorld (set_table (db w) t rows') (up w) (trace w ++ [ToSql t rows]))
  | None =>
      (Raise IntegrityError, mkWorld (db w) (up w) (trace w ++ [ToSql t rows]))
  end.
Proof.
  unfold step, exec. destruct (sql_insert (table_rows (db w) t) rows); reflexivity.
Qed.

Lemma run_time_sleep (s : Q) (w : World REAL U) :
  run ak (time_sleep s) w = (Ok tt, mkWorld (db w) (up w) (trace w ++ [Sleep s])).
Proof. reflexivity. Qed.

Lemma run_get_last_date (t : Table) (code col : pystr) (w : World REAL U) :
  run ak (get_last_date t code col) w =
  (Ok match select_max_date (db w) t code with
      | Some d => if truthy d then Some d else None
      | None => None
      end,
   mkWorld (db w) (up w) (trace w ++ [SelectMax t code])).
Proof. reflexivity. Qed.

(** What [get_last_date] followed by [x if x else start] amounts to. *)
Lemma or_start_get_last_date (s : Store REAL) (t : Table) (code start : pystr) :
  or_start match select_max_date s t code with
           | Some d => if truthy d then Some d else None
           | None => None
           end start
  = effective_start s t code start.
Proof.
  unfold effective_start, or_start.
  destruct (select_max_date s t code) as [d |]; [| reflexivity].
  destruct (truthy d) eqn:E; [rewrite E |]; reflexivity.
Qed.

(* --------------------------------------------------------------------- *)
(** *** The wrapped fetch *)

(** [retry 2 3] around one call, attempt by attempt. *)
Lemma run_retry_call (c : ak_call) (w : World REAL U) :
  run ak (retry 2 3 (upstream c)) w =
  let w1 := after_call ak c w in
  match fst (ak (up w) c) with
  | Ok df => (Ok df, w1)
  | Raise _ =>
      let w2 := after_call ak c (after_sleep 2 w1) in
      match fst (ak (up w1) c) with
      | Ok df => (Ok df, w2)
      | Raise _ =>
          let w3 := after_call ak c (after_sleep 2 w2) in
          match fst (ak (up w2) c) with
          | Ok df => (Ok df, w3)
          | Raise e3 => (Raise (RetryError e3), w3)
          end
      end
  end.
Proof.
  cbv zeta. unfold retry, upstream, after_call, after_sleep. simpl.
  rewrite step_upstream.
  destruct (ak (up w) c) as [[df | e1] u1]; simpl; [reflexivity |].
  rewrite step_upstream. simpl.
  destruct (ak u1 c) as [[df | e2] u2]; simpl; [reflexivity |].
  rewrite step_upstream. simpl.
  destruct (ak u2 c) as [[df | e3] u3]; reflexivity.
Qed.

Lemma fetch_of_retry (t : Table) (code start end_ : pystr) :
  fetch_of t code start end_ = retry (REAL := REAL) 2 3 (upstream (fetch_call t code start end_)).
Proof. destruct t; reflexivity. Qed.

(* --------------------------------------------------------------------- *)
(** *** [download_stock], paragraph by paragraph *)

Lemma download_stock_unfold (code start end_ : pystr) (sleep_time : Q) :
  download_stock (REAL := REAL) code start end_ sleep_time =
  sync_kind_then daily code start end_ sleep_time
    (sync_kind_then weekly code start end_ sleep_time
       (sync_kind minute code start end_ sleep_time)).
Proof. reflexivity. Qed.

(** A paragraph run from [w]: the query, the wrapped fetch from the
    effective start, then the insert of a frame that is not empty, then the
    sleep. *)
Lemma run_sync_kind_then {A : Type} (t : Table) (code start end_ : pystr)
    (sleep_time : Q) (rest : prog REAL A) (w : World REAL U) :
  run ak (sync_kind_then t code start end_ sleep_time rest) w =
  match run ak (fetch_of t code (effective_start (db w) t code start) end_)
            (after_select t code w) with
  | (Raise e, w2) => (Raise e, w2)
  | (Ok df, w2) =>
      if df_empty df then run ak rest (after_sleep sleep_time w2)
      else
        match sql_insert (table_rows (db w2) t) (df_insert_ts_code code df) with
        | Some rows' =>
            run ak rest
              (after_sleep sleep_time
                 (mkWorld (set_table (db w2) t rows') (up w2)
                    (trace w2 ++ [ToSql t (df_insert_ts_code code df)])))
        | None =>
            (Raise IntegrityError,
             mkWorld (db w2) (up w2) (trace w2 ++ [ToSql t (df_insert_ts_code code df)]))
        end
  end.
Proof.
  unfold sync_kind_then.
  rewrite run_bind, run_get_last_date, or_start_get_last_date, run_bind.
  fold (after_select t code w).
  destruct (run ak (fetch_of t code (effective_start (db w) t code start) end_)
              (after_select t code w)) as [[df | e] w2]; [| reflexivity].
  rewrite run_bind. unfold append_data.
  destruct (df_empty df).
  - simpl. reflexivity.
  - unfold to_sql. simpl. rewrite step_to_sql.
    destruct (sql_insert (table_rows (db w2) t) (df_insert_ts_code code df)); reflexivity.
Qed.

Lemma run_sync_kind_seq {A : Type} (t : Table) (code start end_ : pystr)
    (sleep_time : Q) (rest : prog REAL A) (w : World REAL U) :
  run ak (sync_kind_then t code start end_ sleep_time rest) w =
  match run ak (sync_kind t code start end_ sleep_time) w with
  | (Ok _, w') => run ak rest w'
  | (Raise e, w') => (Raise e, w')
  end.
Proof.
  unfold sync_kind. rewrite !run_sync_kind_then.
  destruct (run ak (fetch_of t code (effective_start (db w) t code start) end_)
              (after_select t code w)) as [[df | e] w2]; [| reflexivity].
  destruct (df_empty df); [reflexivity |].
  destruct (sql_insert (table_rows (db w2) t) (df_insert_ts_code code df)); reflexivity.
Qed.

(* --------------------------------------------------------------------- *)
(** *** The operations of a run of [download_stock] *)

Lemma run_retry_call_ops (c : ak_call) (w : World REAL U) :
  exists f,
    fetch_ops c f /\
    trace (snd (run ak (retry 2 3 (upstream c)) w)) = trace w ++ f /\
    db (snd (run ak (retry 2 3 (upstream c)) w)) = db w /\
    forall df, fst (run ak (retry 2 3 (upstream c)) w) = Ok df -> answered ak c df.
Proof.
  rewrite run_retry_call. cbv zeta.
  destruct (fst (ak (up w) c)) eqn:E1.
  { exists [Upstream c]. split; [constructor | split; [reflexivity | split; [reflexivity |]]].
    simpl. intros df [= <-]. now exists (up w). }
  destruct (fst (ak (up (after_call ak c w)) c)) eqn:E2.
  { exists [Upstream c; Sleep 2; Upstream c].
    split; [constructor | split; [| split; [reflexivity |]]].
    - simpl. rewrite <- !app_assoc. reflexivity.
    - simpl. intros df [= <-]. now exists (up (after_call ak c w)). }
  exists [Upstream c; Sleep 2; Upstream c; Sleep 2; Upstream c].
  split; [constructor |].
  destruct (fst (ak (up (after_call ak c (after_sleep 2 (after_call ak c w)))) c)) eqn:E3;
    (split; [simpl; rewrite <- !app_assoc; reflexivity | split; [reflexivity |]]).
  - simpl. intros df [= <-].
    now exists (up (after_call ak c (after_sleep 2 (after_call ak c w)))).
  - simpl. intros df [=].
Qed.

Lemma table_rows_set_table_same (s : Store REAL) (t : Table) (rows : list (Row REAL)) :
  table_rows (set_table s t rows) t = rows.
Proof. destruct t; reflexivity. Qed.

Lemma table_rows_set_table_other (s : Store REAL) (t t' : Table) (rows : list (Row REAL)) :
  t' <> t -> table_rows (set_table s t rows) t' = table_rows s t'.
Proof. destruct t, t'; intros H; try reflexivity; now contradiction H. Qed.

Lemma df_insert_ts_code_nonempty (code : pystr) (df : DataFrame REAL) :
  df_empty df = false -> df_insert_ts_code code df <> [].
Proof. destruct df; [discriminate | intros _; discriminate]. Qed.

(** One paragraph: its operations, and the tables it leaves alone. *)
Lemma run_sync_kind_ops (t : Table) (code start end_ : pystr) (sleep_time : Q)
    (w : World REAL U) :
  exists ops,
    trace (snd (run ak (sync_kind t code start end_ sleep_time) w)) = trace w ++ ops /\
    kind_ops ak (db w) code start end_ sleep_time t
      (is_ok (fst (run ak (sync_kind t code start end_ sleep_time) w))) ops /\
    forall t', t' <> t ->
      table_rows (db (snd (run ak (sync_kind t code start end_ sleep_time) w))) t'
      = table_rows (db w) t'.
Proof.
  unfold sync_kind. rewrite run_sync_kind_then, fetch_of_retry.
  destruct (run_retry_call_ops
              (fetch_call t code (effective_start (db w) t code start) end_)
              (after_select t code w)) as (f & Hf & Htr & Hdb & Hans).
  destruct (run ak _ (after_select t code w)) as [[df | e] w2]; simpl in Htr, Hdb, Hans.
  - destruct (df_empty df) eqn:Edf.
    + exists (SelectMax t code :: f ++ [Sleep sleep_time]). simpl.
      rewrite Htr, Hdb. simpl. rewrite <- !app_assoc.
      split; [reflexivity | split; [now constructor | reflexivity]].
    + destruct (sql_insert (table_rows (db w2) t) (df_insert_ts_code code df))
        as [rows' |] eqn:Eins.
      * exists (SelectMax t code :: f ++ [ToSql t (df_insert_ts_code code df); Sleep sleep_time]).
        simpl. rewrite Htr. simpl. rewrite <- !app_assoc. simpl.
        split; [reflexivity | split].
        -- constructor; [assumption | now apply Hans | assumption].
        -- intros t' Ht'. rewrite table_rows_set_table_other by assumption.
           now rewrite Hdb.
      * exists (SelectMax t code :: f ++ [ToSql t (df_insert_ts_code code df)]).
        simpl. rewrite Htr, Hdb. simpl. rewrite <- !app_assoc. simpl.
        split; [reflexivity | split; [| reflexivity]].
        constructor; [assumption | now apply Hans | assumption].
  - exists (SelectMax t code :: f). simpl. rewrite Htr, Hdb. simpl.
    rewrite <- !app_assoc. simpl.
    split; [reflexivity | split; [now constructor | reflexivity]].
Qed.

Lemma effective_start_ext (s s' : Store REAL) (t : Table) (code start : pystr) :
  table_rows s t = table_rows s' t ->
  effective_start s t code start = effective_start s' t code start.
Proof.
  intros H. unfold effective_start, select_max_date. now rewrite H.
Qed.

Lemma kind_ops_ext (s s' : Store REAL) (code start end_ : pystr) (sleep_time : Q)
    (t : Table) (b : bool) (ops : list (op REAL)) :
  table_rows s t = table_rows s' t ->
  kind_ops ak s code start end_ sleep_time t b ops ->
  kind_ops ak s' code start end_ sleep_time t b ops.
Proof.
  intros H Hk.
  destruct Hk as [f Hf | f Hf | f df Hf Ha Hne | f df Hf Ha Hne];
    rewrite (effective_start_ext s s' t code start H) in *;
    now constructor.
Qed.

(** The three paragraphs in a row: the operations of [download_stock] and
    its outcome, from the store it starts on. *)
Lemma run_download_stock_ops (code start end_ : pystr) (sleep_time : Q)
    (w : World REAL U) :
  exists ops,
    trace (snd (run ak (download_stock code start end_ sleep_time) w)) = trace w ++ ops /\
    kinds_ops ak (db w) code start end_ sleep_time [daily; weekly; minute]
      (is_ok (fst (run ak (download_stock code start end_ sleep_time) w))) ops.
Proof.
  rewrite download_stock_unfold, run_sync_kind_seq.
  destruct (run_sync_kind_ops daily code start end_ sleep_time w) as (o1 & Ht1 & Hk1 & Hd1).
  destruct (run ak (sync_kind daily code start end_ sleep_time) w) as [[[] | e1] w1];
    simpl in Ht1, Hk1, Hd1.
  2: { exists o1. simpl. split; [assumption | now constructor]. }
  rewrite run_sync_kind_seq.
  destruct (run_sync_kind_ops weekly code start end_ sleep_time w1) as (o2 & Ht2 & Hk2 & Hd2).
  apply (kind_ops_ext (db w1) (db w)) in Hk2; [| apply Hd1; discriminate].
  destruct (run ak (sync_kind weekly code start end_ sleep_time) w1) as [[[] | e2] w2];
    simpl in Ht2, Hk2, Hd2.
  2: { exists (o1 ++ o2). simpl. rewrite Ht2, Ht1, app_assoc.
       split; [reflexivity |]. apply kinds_next; [assumption | now constructor]. }
  destruct (run_sync_kind_ops minute code start end_ sleep_time w2) as (o3 & Ht3 & Hk3 & Hd3).
  apply (kind_ops_ext (db w2) (db w)) in Hk3;
    [| rewrite Hd2 by discriminate; apply Hd1; discriminate].
  exists (o1 ++ o2 ++ o3). rewrite Ht3, Ht2, Ht1, !app_assoc.
  split; [reflexivity |]. rewrite <- app_assoc.
  apply kinds_next; [assumption |]. apply kinds_next; [assumption |].
  destruct (fst (run ak (sync_kind minute code start end_ sleep_time) w2)); simpl in *.
  - rewrite <- (app_nil_r o3). apply kinds_next; [assumption | constructor].
  - now constructor.
Qed.

(* --------------------------------------------------------------------- *)
(** *** What the operations of a run can be *)

(** The operations the paragraph for [t] is made of. *)
Lemma kind_ops_In (s : Store REAL) (code start end_ : pystr) (sleep_time : Q)
    (t : Table) (b : bool) (ops : list (op REAL)) (o : op REAL) :
  kind_ops ak s code start end_ sleep_time t b ops ->
  In o ops ->
  o = SelectMax t code \/
  o = Upstream (fetch_call t code (effective_start s t code start) end_) \/
  o = Sleep 2 \/
  o = Sleep sleep_time \/
  exists df,
    answered ak (fetch_call t code (effective_start s t code start) end_) df /\
    df_empty df = false /\
    o = ToSql t (df_insert_ts_code code df).
Proof.
  assert (Hfetch : forall c f, fetch_ops (REAL := REAL) c f -> In o f ->
                   o = Upstream c \/ o = Sleep 2).
  { intros c f Hf Hin. destruct Hf; simpl in Hin; intuition auto. }
  intros Hk Hin.
  destruct Hk as [f Hf | f Hf | f df Hf Ha Hne | f df Hf Ha Hne];
    simpl in Hin; destruct Hin as [<- | Hin]; auto;
    try (apply in_app_or in Hin; destruct Hin as [Hin | Hin]);
    try (destruct (Hfetch _ _ Hf Hin) as [-> | ->]; now auto).
  - simpl in Hin. destruct Hin as [<- | []]. auto.
  - simpl in Hin. destruct Hin as [<- | [<- | []]]; [| now auto].
    do 4 right. now exists df.
  - simpl in Hin. destruct Hin as [<- | []]. do 4 right. now exists df.
Qed.

Lemma kinds_ops_In (s : Store REAL) (code start end_ : pystr) (sleep_time : Q)
    (ts : list Table) (b : bool) (ops : list (op REAL)) (o : op REAL) :
  kinds_ops ak s code start end_ sleep_time ts b ops ->
  In o ops ->
  exists t b' ops',
    In t ts /\ kind_ops ak s code start end_ sleep_time t b' ops' /\ In o ops'.
Proof.
  intros Hk Hin. induction Hk as [| t ts o1 Hk1 | t ts b o1 os Hk1 Hks IH].
  - destruct Hin.
  - exists t, false, o1. simpl. auto.
  - apply in_app_or in Hin. destruct Hin as [Hin | Hin].
    + exists t, true, o1. simpl. auto.
    + destruct (IH Hin) as (t' & b' & ops' & Ht' & Hk' & Hin').
      exists t', b', ops'. simpl. auto.
Qed.

Lemma call_table_fetch_call (t : Table) (code start end_ : pystr) :
  call_table (fetch_call t code start end_) = Some t.
Proof. destruct t; reflexivity. Qed.

Lemma call_symbol_fetch_call (t : Table) (code start end_ : pystr) :
  call_symbol (fetch_call t code start end_) = code.
Proof. destruct t; reflexivity. Qed.


(* --------------------------------------------------------------------- *)
(** *** The places of the operations *)







(* --------------------------------------------------------------------- *)
(** *** Primary keys *)

Lemma str_eqb_eq (a b : pystr) : str_eqb a b = true <-> a = b.
Proof.
  unfold str_eqb. destruct (list_eq_dec N.eq_dec a b); split; congruence.
Qed.

Lemma pk_eqb_eq (k1 k2 : pystr * pystr) : pk_eqb k1 k2 = true <-> k1 = k2.
Proof.
  unfold pk_eqb. destruct k1 as [a1 b1], k2 as [a2 b2]. simpl.
  rewrite andb_true_iff, !str_eqb_eq. split.
  - intros [-> ->]. reflexivity.
  - intros [= -> ->]. split; reflexivity.
Qed.




(** An insert statement that goes through has appended its rows, in order. *)
Lemma sql_insert_Some (batch rows rows' : list (Row REAL)) :
  sql_insert rows batch = Some rows' -> rows' = rows ++ batch.
Proof.
  revert rows. induction batch as [| r rest IH]; intros rows H; simpl in H.
  - injection H as <-. now rewrite app_nil_r.
  - destruct (pk_present rows (pk r)); [discriminate |].
    apply IH in H. now rewrite <- app_assoc in H.
Qed.









(* --------------------------------------------------------------------- *)
(** *** The order of TEXT values and [MAX] *)

Lemma str_compare_refl (a : pystr) : str_compare a a = Eq.
Proof.
  induction a as [| x a IH]; simpl; [reflexivity |].
  now rewrite N.compare_refl.
Qed.

Lemma str_compare_eq (a b : pystr) : str_compare a b = Eq -> a = b.
Proof.
  revert b. induction a as [| x a IH]; intros [| y b] H; simpl in H;
    try discriminate; [reflexivity |].
  destruct (N.compare x y) eqn:E; try discriminate.
  apply N.compare_eq in E. subst y. f_equal. now apply IH.
Qed.

Lemma str_compare_antisym (a b : pystr) :
  str_compare b a = CompOpp (str_compare a b).
Proof.
  revert b. induction a as [| x a IH]; intros [| y b]; simpl; try reflexivity.
  rewrite (N.compare_antisym x y).
  destruct (N.compare x y); simpl; [apply IH | reflexivity | reflexivity].
Qed.

Lemma str_compare_lt_trans (a b c : pystr) :
  str_compare a b = Lt -> str_compare b c = Lt -> str_compare a c = Lt.
Proof.
  revert b c. induction a as [| x a IH]; intros [| y b] [| z c] H1 H2; simpl in *;
    try discriminate; try reflexivity.
  destruct (N.compare x y) eqn:Exy; try discriminate.
  - apply N.compare_eq in Exy. subst y.
    destruct (N.compare x z); try discriminate; [| reflexivity].
    now apply (IH b c).
  - destruct (N.compare y z) eqn:Eyz; try discriminate.
    + apply N.compare_eq in Eyz. subst z. now rewrite Exy.
    + rewrite N.compare_lt_iff in Exy, Eyz.
      assert (E : N.compare x z = Lt) by (apply N.compare_lt_iff; lia).
      now rewrite E.
Qed.

Lemma str_leb_refl (a : pystr) : str_leb a a = true.
Proof. unfold str_leb. now rewrite str_compare_refl. Qed.

Lemma str_leb_antisym (a b : pystr) :
  str_leb a b = true -> str_leb b a = true -> a = b.
Proof.
  unfold str_leb. rewrite (str_compare_antisym a b).
  destruct (str_compare a b) eqn:E; simpl; try discriminate.
  intros _ _. now apply str_compare_eq.
Qed.

Lemma str_leb_trans (a b c : pystr) :
  str_leb a b = true -> str_leb b c = true -> str_leb a c = true.
Proof.
  unfold str_leb. intros H1 H2.
  destruct (str_compare a b) eqn:E1; try discriminate.
  - apply str_compare_eq in E1. now subst b.
  - destruct (str_compare b c) eqn:E2; try discriminate.
    + apply str_compare_eq in E2. subst c. now rewrite E1.
    + now rewrite (str_compare_lt_trans a b c E1 E2).
Qed.

Lemma str_ltb_false_leb (a b : pystr) : str_ltb a b = false -> str_leb b a = true.
Proof.
  unfold str_ltb, str_leb. rewrite (str_compare_antisym a b).
  destruct (str_compare a b); simpl; congruence.
Qed.

Lemma str_ltb_true_leb (a b : pystr) : str_ltb a b = true -> str_leb a b = true.
Proof.
  unfold str_ltb, str_leb. destruct (str_compare a b); congruence.
Qed.

(** The fold of [sql_max] from a value on: its result is that value or
    one of the list, and nothing is greater. *)
Lemma sql_max_from (l : list pystr) (m : pystr) :
  exists m',
    fold_left
      (fun acc s =>
         match acc with
         | None => Some s
         | Some m => if str_ltb m s then Some s else Some m
         end)
      l (Some m) = Some m' /\
    In m' (m :: l) /\
    forall d, In d (m :: l) -> str_leb d m' = true.
Proof.
  revert m. induction l as [| x l IH]; intros m; simpl.
  - exists m. split; [reflexivity | split; [now left |]].
    intros d [<- | []]. apply str_leb_refl.
  - destruct (str_ltb m x) eqn:E.
    + destruct (IH x) as (m' & Hf & Hin & Hmax).
      exists m'. split; [assumption | split].
      * destruct Hin as [<- | Hin]; [right; now left | right; now right].
      * intros d [<- | [<- | Hd]].
        -- apply (str_leb_trans _ x); [now apply str_ltb_true_leb |].
           apply Hmax. now left.
        -- apply Hmax. now left.
        -- apply Hmax. now right.
    + destruct (IH m) as (m' & Hf & Hin & Hmax).
      exists m'. split; [assumption | split].
      * destruct Hin as [<- | Hin]; [now left | right; now right].
      * intros d [<- | [<- | Hd]].
        -- apply Hmax. now left.
        -- apply (str_leb_trans _ m); [now apply str_ltb_false_leb |].
           apply Hmax. now left.
        -- apply Hmax. now right.
Qed.

Lemma sql_max_nil : sql_max [] = None.
Proof. reflexivity. Qed.

Lemma sql_max_spec (l : list pystr) (m : pystr) :
  sql_max l = Some m <-> In m l /\ forall d, In d l -> str_leb d m = true.
Proof.
  destruct l as [| x l].
  - simpl. split; [discriminate | intros [[] _]].
  - unfold sql_max. simpl.
    destruct (sql_max_from l x) as (m' & Hf & Hin & Hmax). rewrite Hf. split.
    + intros [= <-]. split; assumption.
    + intros [Hm Hub]. f_equal.
      apply str_leb_antisym; [apply Hub | apply Hmax]; assumption.
Qed.

(** The effective start, from what is stored. *)
Lemma effective_start_nothing_stored (s : Store REAL) (t : Table) (code start : pystr) :
  stored_dates s t code = [] -> effective_start s t code start = start.
Proof.
  intros H. unfold effective_start, select_max_date.
  fold (stored_dates s t code). now rewrite H.
Qed.

Lemma effective_start_last_stored (s : Store REAL) (t : Table) (code start T : pystr) :
  is_last_stored s t code T ->
  effective_start s t code start = if truthy T then T else start.
Proof.
  intros H. unfold effective_start, select_max_date.
  fold (stored_dates s t code).
  apply sql_max_spec in H. now rewrite H.
Qed.

(* --------------------------------------------------------------------- *)
(** *** The ways through a computation *)

Lemma path_bind_inv {A B : Type} (p : prog REAL A) (f : A -> prog REAL B)
    (ops : list (op REAL)) (res : result B) :
  path (bind p f) ops res ->
  (exists a ops1 ops2,
      path p ops1 (Ok a) /\ path (f a) ops2 res /\ ops = ops1 ++ ops2) \/
  (exists e, path p ops (Raise e) /\ res = Raise e).
Proof.
  revert ops. induction p as [a | e | o k IH]; intros ops H; simpl in H.
  - left. exists a, [], ops. repeat split. assumption.
  - destruct H as [-> ->]. right. exists e. repeat split.
  - destruct H as (r & ops' & -> & Hp).
    destruct (IH r ops' Hp) as [(a & o1 & o2 & H1 & H2 & ->) | (e & H1 & ->)].
    + left. exists a, (o :: o1), o2. repeat split; [| assumption].
      simpl. now exists r, o1.
    + right. exists e. split; [| reflexivity]. simpl. now exists r, ops'.
Qed.

Lemma path_try_except_inv {A : Type} (p : prog REAL A) (h : exn -> prog REAL A)
    (ops : list (op REAL)) (res : result A) :
  path (try_except p h) ops res ->
  (exists a, path p ops (Ok a) /\ res = Ok a) \/
  (exists e ops1 ops2,
      path p ops1 (Raise e) /\ path (h e) ops2 res /\ ops = ops1 ++ ops2).
Proof.
  revert ops. induction p as [a | e | o k IH]; intros ops H; simpl in H.
  - destruct H as [-> ->]. left. exists a. repeat split.
  - right. exists e, [], ops. repeat split. assumption.
  - destruct H as (r & ops' & -> & Hp).
    destruct (IH r ops' Hp) as [(a & H1 & ->) | (e & o1 & o2 & H1 & H2 & ->)].
    + left. exists a. split; [| reflexivity]. simpl. now exists r, ops'.
    + right. exists e, (o :: o1), o2. repeat split; [| assumption].
      simpl. now exists r, o1.
Qed.

Lemma path_try_finally_inv {A : Type} (p : prog REAL A) (fin : prog REAL unit)
    (ops : list (op REAL)) (res : result A) :
  path (try_finally p fin) ops res ->
  exists ops1 res1 ops2 res2,
    path p ops1 res1 /\ path fin ops2 res2 /\ ops = ops1 ++ ops2 /\
    res = match res2 with
          | Ok _ => res1
          | Raise e => Raise e
          end.
Proof.
  revert ops. induction p as [a | e | o k IH]; intros ops H; simpl in H.
  - apply path_bind_inv in H.
    destruct H as [(u & o1 & o2 & H1 & [-> ->] & ->) | (e & H1 & ->)].
    + exists [], (Ok a), o1, (Ok u). rewrite app_nil_r. repeat split. assumption.
    + exists [], (Ok a), ops, (Raise e). repeat split. assumption.
  - apply path_bind_inv in H.
    destruct H as [(u & o1 & o2 & H1 & [-> ->] & ->) | (e' & H1 & ->)].
    + exists [], (Raise e), o1, (Ok u). rewrite app_nil_r. repeat split. assumption.
    + exists [], (Raise e), ops, (Raise e'). repeat split. assumption.
  - destruct H as (r & ops' & -> & Hp).
    destruct (IH r ops' Hp) as (o1 & r1 & o2 & r2 & H1 & H2 & -> & ->).
    exists (o :: o1), r1, o2, r2. repeat split; [| assumption].
    simpl. now exists r, o1.
Qed.

(** What is run is one of the ways through. *)
Lemma run_path {A : Type} (p : prog REAL A) (w : World REAL U) :
  exists ops,
    trace (snd (run ak p w)) = trace w ++ ops /\ path p ops (fst (run ak p w)).
Proof.
  revert w. induction p as [a | e | o k IH]; intros w; simpl.
  - exists []. rewrite app_nil_r. repeat split.
  - exists []. rewrite app_nil_r. repeat split.
  - pose proof (step_trace o w) as Hs.
    destruct (step ak o w) as [r w1]. simpl in Hs.
    destruct (IH r w1) as (ops & Ht & Hp).
    exists (o :: ops). split.
    + rewrite Ht, Hs, <- app_assoc. reflexivity.
    + now exists r, ops.
Qed.

(* --------------------------------------------------------------------- *)
(** *** Bounds on the ways through *)

Lemma within_ret {A : Type} (n : nat) (P : op REAL -> Prop) (a : A) :
  within n P (Ret a).
Proof. intros ops res [-> _]. split; [simpl; lia | constructor]. Qed.

Lemma within_throw {A : Type} (n : nat) (P : op REAL -> Prop) (e : exn) :
  within (A := A) n P (Throw e).
Proof. intros ops res [-> _]. split; [simpl; lia | constructor]. Qed.

Lemma within_vis {A : Type} (n : nat) (P : op REAL -> Prop) (o : op REAL)
    (k : resp o -> prog REAL A) :
  P o -> (forall r, within n P (k r)) -> within (S n) P (Vis o k).
Proof.
  intros Ho Hk ops res (r & ops' & -> & Hp).
  destruct (Hk r ops' res Hp) as [Hl Hf].
  split; [simpl; lia | now constructor].
Qed.

Lemma within_weaken {A : Type} (n m : nat) (P Q : op REAL -> Prop) (p : prog REAL A) :
  (n <= m)%nat -> (forall o, P o -> Q o) -> within n P p -> within m Q p.
Proof.
  intros Hnm HPQ H ops res Hp. destruct (H ops res Hp) as [Hl Hf].
  split; [lia |]. eapply Forall_impl; eassumption.
Qed.

Lemma within_bind {A B : Type} (n m : nat) (P : op REAL -> Prop)
    (p : prog REAL A) (f : A -> prog REAL B) :
  within n P p -> (forall a, within m P (f a)) -> within (n + m) P (bind p f).
Proof.
  intros Hp Hf ops res H. apply path_bind_inv in H.
  destruct H as [(a & o1 & o2 & H1 & H2 & ->) | (e & H1 & ->)].
  - destruct (Hp _ _ H1) as [L1 F1]. destruct (Hf a _ _ H2) as [L2 F2].
    split; [rewrite length_app; lia | now apply Forall_app].
  - destruct (Hp _ _ H1) as [L1 F1]. split; [lia | assumption].
Qed.

Lemma within_try_except {A : Type} (n m : nat) (P : op REAL -> Prop)
    (p : prog REAL A) (h : exn -> prog REAL A) :
  within n P p -> (forall e, within m P (h e)) -> within (n + m) P (try_except p h).
Proof.
  intros Hp Hh ops res H. apply path_try_except_inv in H.
  destruct H as [(a & H1 & ->) | (e & o1 & o2 & H1 & H2 & ->)].
  - destruct (Hp _ _ H1) as [L1 F1]. split; [lia | assumption].
  - destruct (Hp _ _ H1) as [L1 F1]. destruct (Hh e _ _ H2) as [L2 F2].
    split; [rewrite length_app; lia | now apply Forall_app].
Qed.

Lemma within_try_finally {A : Type} (n m : nat) (P : op REAL -> Prop)
    (p : prog REAL A) (fin : prog REAL unit) :
  within n P p -> within m P fin -> within (n + m) P (try_finally p fin).
Proof.
  intros Hp Hfin ops res H. apply path_try_finally_inv in H.
  destruct H as (o1 & r1 & o2 & r2 & H1 & H2 & -> & _).
  destruct (Hp _ _ H1) as [L1 F1]. destruct (Hfin _ _ H2) as [L2 F2].
  split; [rewrite length_app; lia | now apply Forall_app].
Qed.

(* --------------------------------------------------------------------- *)
(** *** The ways through [download_stock] and [task] *)

Lemma path_exists {A : Type} (p : prog REAL A) : exists ops res, path p ops res.
Proof.
  induction p as [a | e | o k IH].
  - exists [], (Ok a). repeat split.
  - exists [], (Raise e). repeat split.
  - destruct (IH (some_answer o)) as (ops & res & H).
    exists (o :: ops), res. simpl. now exists (some_answer o), ops.
Qed.

Lemma within_vis_inv {A : Type} (n : nat) (P : op REAL -> Prop) (o : op REAL)
    (k : resp o -> prog REAL A) :
  within n P (Vis o k) ->
  P o /\ exists n', n = S n' /\ forall r, within n' P (k r).
Proof.
  intros H.
  assert (Hk : forall r ops res, path (k r) ops res ->
                                 (S (length ops) <= n)%nat /\ P o /\ Forall P ops).
  { intros r ops res Hp.
    destruct (H (o :: ops) res) as [Hl Hf]; [simpl; now exists r, ops |].
    inversion Hf; subst. simpl in Hl. repeat split; assumption. }
  destruct (path_exists (k (some_answer o))) as (ops0 & res0 & H0).
  destruct (Hk _ _ _ H0) as (Hl0 & Ho & _).
  split; [assumption |].
  destruct n as [| n']; [lia |]. exists n'. split; [reflexivity |].
  intros r ops res Hp. destruct (Hk r ops res Hp) as (Hl & _ & Hf).
  split; [lia | assumption].
Qed.

Lemma sync_op_no_codes (code : pystr) (o : op REAL) :
  op_codes o = [] -> is_pbar_update o = false -> sync_op code o.
Proof. intros H1 H2. split; [| assumption]. intros x Hx. rewrite H1 in Hx. destruct Hx. Qed.

Lemma sync_op_select (code : pystr) (t : Table) :
  sync_op (REAL := REAL) code (SelectMax t code).
Proof. split; [| reflexivity]. intros x [<- | []]. reflexivity. Qed.

Lemma sync_op_upstream (code start end_ : pystr) (t : Table) :
  sync_op (REAL := REAL) code (Upstream (fetch_call t code start end_)).
Proof.
  split; [| reflexivity]. intros x [<- | []]. apply call_symbol_fetch_call.
Qed.

Lemma sync_op_to_sql (code : pystr) (t : Table) (df : DataFrame REAL) :
  sync_op code (ToSql t (df_insert_ts_code code df)).
Proof.
  split; [| reflexivity]. intros x Hx. simpl in Hx.
  unfold df_insert_ts_code in Hx. rewrite map_map in Hx. simpl in Hx.
  apply in_map_iff in Hx. destruct Hx as (l & <- & _). reflexivity.
Qed.

Lemma within_retry_call (P : op REAL -> Prop) (c : ak_call) :
  P (Upstream c) -> P (Sleep 2) -> within 5 P (retry 2 3 (upstream c)).
Proof.
  intros Hc Hs.
  assert (Hfn : within 1 P (upstream (REAL := REAL) c)).
  { apply within_vis; [assumption |]. intros [df | e]; [apply within_ret | apply within_throw]. }
  assert (Hsl : forall (q : prog REAL (DataFrame REAL)) n,
             within n P q -> within (1 + n) P (bind (time_sleep 2) (fun _ => q))).
  { intros q n Hq. apply within_bind; [| intros _; assumption].
    apply within_vis; [assumption |]. intros _. apply within_ret. }
  change (retry 2 3%nat (upstream c)) with
    (try_except (upstream (REAL := REAL) c)
       (fun _ => bind (time_sleep 2) (fun _ =>
          try_except (upstream c)
            (fun _ => bind (time_sleep 2) (fun _ =>
               try_except (upstream c) (fun exc => Throw (RetryError exc))))))).
  apply (within_try_except 1 4); [assumption |]. intros _.
  apply (Hsl _ 3). apply (within_try_except 1 2); [assumption |]. intros _.
  apply (Hsl _ 1). apply (within_try_except 1 0); [assumption |]. intros e.
  apply within_throw.
Qed.

Lemma within_sync_kind_then {A : Type} (n : nat) (t : Table) (code start end_ : pystr)
    (sleep_time : Q) (rest : prog REAL A) :
  within n (sync_op code) rest ->
  within (8 + n) (sync_op code) (sync_kind_then t code start end_ sleep_time rest).
Proof.
  intros Hrest. unfold sync_kind_then.
  apply (within_bind 1 (7 + n)).
  { unfold get_last_date, select_max. simpl.
    apply within_vis; [apply sync_op_select |]. intros r. apply within_ret. }
  intros last. cbv zeta.
  apply (within_bind 5 (2 + n)).
  - rewrite fetch_of_retry. apply within_retry_call;
      [apply sync_op_upstream | now apply sync_op_no_codes].
  - intros df. apply (within_bind 1 (1 + n)).
    + unfold append_data. destruct (df_empty df).
      * apply within_ret.
      * apply within_vis; [apply sync_op_to_sql |].
        intros [u | e]; [apply within_ret | apply within_throw].
    + intros _. apply (within_bind 1 n); [| intros _; assumption].
      apply within_vis; [now apply sync_op_no_codes |]. intros _. apply within_ret.
Qed.

Lemma within_download_stock (code start end_ : pystr) (sleep_time : Q) :
  within 24 (sync_op code) (download_stock (REAL := REAL) code start end_ sleep_time).
Proof.
  rewrite download_stock_unfold. unfold sync_kind.
  apply (within_sync_kind_then 16). apply (within_sync_kind_then 8).
  apply (within_sync_kind_then 0). apply within_ret.
Qed.

(** Every way through [task]: it returns, and its operations are those
    of [download_stock], then the message when that raised, then one
    advance of the progress bar. *)
Lemma path_task (args : Namespace) (code : pystr) (ops : list (op REAL))
    (res : result unit) :
  path (task (REAL := REAL) args code) ops res ->
  res = Ok tt /\
  exists ops1,
    ops = ops1 ++ [PbarUpdate 1] /\
    (length ops1 <= 25)%nat /\
    Forall (sync_op code) ops1.
Proof.
  intros H. unfold task in H. apply path_try_finally_inv in H.
  destruct H as (o1 & r1 & o2 & r2 & H1 & H2 & -> & ->).
  simpl in H2. destruct H2 as ([] & ops' & -> & -> & ->).
  apply path_try_except_inv in H1.
  destruct H1 as [([] & H1 & ->) | (e & oa & ob & H1 & Hh & ->)].
  - destruct (within_download_stock _ _ _ _ _ _ H1) as [Hl Hf].
    split; [reflexivity |]. exists o1. repeat split; [lia | assumption].
  - destruct (within_download_stock _ _ _ _ _ _ H1) as [Hl Hf].
    simpl in Hh. destruct Hh as ([] & ops' & -> & -> & ->).
    split; [reflexivity |]. exists (oa ++ [Print (FailedToDownload code e)]).
    repeat split.
    + rewrite length_app. simpl. lia.
    + apply Forall_app. split; [assumption |].
      constructor; [| constructor]. now apply sync_op_no_codes.
Qed.

(* --------------------------------------------------------------------- *)
(** *** The moves of the pool *)













Lemma pool_steps_trans (args : Namespace) (n m : nat) (P1 P2 P3 : Pool REAL U) :
  pool_steps ak args n P1 P2 -> pool_steps ak args m P2 P3 ->
  pool_steps ak args (n + m) P1 P3.
Proof.
  induction 1 as [P | n P1 P2 P2' H12 H23 IH]; intros H; [assumption |].
  simpl. econstructor; [eassumption | now apply IH].
Qed.

(** A single worker brings its task to its end. *)
Lemma pool_steps_thread (args : Namespace) (pend : list pystr) (c : pystr)
    (q : prog REAL unit) (w : World REAL U) :
  exists n,
    pool_steps ak args n (mkPool pend [(c, q)] w) (mkPool pend [] (snd (run ak q w))).
Proof.
  revert w. induction q as [[] | e | o k IH]; intros w.
  - exists 1%nat. econstructor; [apply (pool_returned ak args pend [] [] c w) | constructor].
  - exists 1%nat. econstructor; [apply (pool_raised ak args pend [] [] c e w) | constructor].
  - simpl. destruct (step ak o w) as [r w'] eqn:E.
    destruct (IH r w') as [n Hn]. exists (S n).
    econstructor; [apply (pool_op ak args pend [] [] c o k r w w' E) | exact Hn].
Qed.

(** The schedule of a single worker is one of the runs of the pool. *)
Lemma pool_steps_sequential (args : Namespace) (codes : list pystr) (w : World REAL U) :
  (0 < thread_count args)%Z ->
  exists n,
    pool_steps ak args n (mkPool codes [] w) (mkPool [] [] (run_tasks ak args codes w)).
Proof.
  intros Htc. revert w. induction codes as [| c codes IH]; intros w.
  - exists 0%nat. constructor.
  - destruct (pool_steps_thread args codes c (task args c) w) as [n1 H1].
    destruct (IH (snd (run ak (task args c) w))) as [n2 H2].
    exists (S (n1 + n2)). econstructor.
    + apply (pool_start ak args c codes [] w). simpl. lia.
    + simpl. eapply pool_steps_trans; eassumption.
Qed.

Lemma thread_count_positive (args : Namespace) : (0 < thread_count args)%Z.
Proof. unfold thread_count. lia. Qed.

(** The pool never runs more tasks than [thread_count]. *)
Lemma pool_steps_running_bound (args : Namespace) (n : nat) (P P' : Pool REAL U) :
  pool_steps ak args n P P' ->
  (Z.of_nat (length (running P)) <= thread_count args)%Z ->
  (Z.of_nat (length (running P')) <= thread_count args)%Z.
Proof.
  induction 1 as [P | n P1 P2 P3 H12 H23 IH]; intros Hb; [assumption |].
  apply IH. clear IH H23.
  destruct H12 as [c q ts w Hlt | q l1 l2 c o k r w w' E | q l1 l2 c w | q l1 l2 c e w];
    simpl in *; rewrite ?length_app in *; simpl in *; lia.
Qed.

(* --------------------------------------------------------------------- *)
(** *** One code's rows, whatever the other tasks do *)

Lemma same_rows_refl (B : pystr) (s : Store REAL) : same_rows B s s.
Proof. intros t. reflexivity. Qed.

Lemma same_rows_trans (B : pystr) (s1 s2 s3 : Store REAL) :
  same_rows B s1 s2 -> same_rows B s2 s3 -> same_rows B s1 s3.
Proof. intros H1 H2 t. now rewrite H1. Qed.

Lemma same_rows_sym (B : pystr) (s1 s2 : Store REAL) :
  same_rows B s1 s2 -> same_rows B s2 s1.
Proof. intros H t. now rewrite H. Qed.

Lemma pk_present_filter (B : pystr) (tbl : list (Row REAL)) (r : Row REAL) :
  ts_code r = B ->
  pk_present tbl (pk r)
  = pk_present (filter (fun x => str_eqb (ts_code x) B) tbl) (pk r).
Proof.
  intros Hr. unfold pk_present. induction tbl as [| x tbl IH]; [reflexivity |].
  simpl. destruct (str_eqb (ts_code x) B) eqn:E; simpl; rewrite IH; [reflexivity |].
  destruct (pk_eqb (pk x) (pk r)) eqn:Ek; [| reflexivity].
  apply pk_eqb_eq in Ek. injection Ek as Hc _.
  assert (str_eqb (ts_code x) B = true) by (apply str_eqb_eq; congruence).
  congruence.
Qed.

Lemma filter_code_all (B : pystr) (batch : list (Row REAL)) :
  (forall r, In r batch -> ts_code r = B) ->
  filter (fun x => str_eqb (ts_code x) B) batch = batch.
Proof.
  intros H. induction batch as [| r batch IH]; [reflexivity |]. simpl.
  assert (E : str_eqb (ts_code r) B = true) by (apply str_eqb_eq, H; now left).
  rewrite E, IH; [reflexivity |]. intros r' Hr'. apply H. now right.
Qed.

Lemma filter_code_none (B : pystr) (batch : list (Row REAL)) :
  (forall r, In r batch -> ts_code r <> B) ->
  filter (fun x => str_eqb (ts_code x) B) batch = [].
Proof.
  intros H. induction batch as [| r batch IH]; [reflexivity |]. simpl.
  destruct (str_eqb (ts_code r) B) eqn:E.
  - apply str_eqb_eq in E. exfalso. apply (H r); [now left | assumption].
  - apply IH. intros r' Hr'. apply H. now right.
Qed.

(** An insert of rows of the code [B] fares the same on two tables that
    hold the same rows for [B]. *)
Lemma sql_insert_same_rows (B : pystr) (batch tbl tbl' : list (Row REAL)) :
  (forall r, In r batch -> ts_code r = B) ->
  filter (fun x => str_eqb (ts_code x) B) tbl
  = filter (fun x => str_eqb (ts_code x) B) tbl' ->
  (sql_insert tbl batch = None /\ sql_insert tbl' batch = None) \/
  (sql_insert tbl batch = Some (tbl ++ batch) /\
   sql_insert tbl' batch = Some (tbl' ++ batch)).
Proof.
  revert tbl tbl'. induction batch as [| r batch IH]; intros tbl tbl' Hall Hf; simpl.
  - right. now rewrite !app_nil_r.
  - assert (Hr : ts_code r = B) by (apply Hall; now left).
    rewrite (pk_present_filter B tbl r Hr), (pk_present_filter B tbl' r Hr), Hf.
    destruct (pk_present _ (pk r)); [now left |].
    destruct (IH (tbl ++ [r]) (tbl' ++ [r])) as [H | H].
    + intros r' Hr'. apply Hall. now right.
    + rewrite !filter_app, Hf. reflexivity.
    + now left.
    + right. now rewrite <- !app_assoc in H.
Qed.

Lemma rows_of_set_table (B : pystr) (s : Store REAL) (t t' : Table)
    (rows : list (Row REAL)) :
  rows_of B (set_table s t rows) t'
  = if Table_eqb t t' then filter (fun x => str_eqb (ts_code x) B) rows
    else rows_of B s t'.
Proof. unfold rows_of. destruct t, t'; reflexivity. Qed.

(** An operation that does not mention [B] leaves the rows of [B] alone. *)
Lemma step_avoids (B : pystr) (o : op REAL) (w : World REAL U) :
  ~ In B (op_codes o) -> same_rows B (db (snd (step ak o w))) (db w).
Proof.
  intros Hno. destruct o as [t c | c | t rows | s | m | n]; try apply same_rows_refl.
  - rewrite step_upstream. apply same_rows_refl.
  - rewrite step_to_sql.
    destruct (sql_insert (table_rows (db w) t) rows) as [rows' |] eqn:E; simpl;
      [| apply same_rows_refl].
    apply sql_insert_Some in E. subst rows'. intros t'.
    rewrite rows_of_set_table. destruct (Table_eqb t t') eqn:Et; [| reflexivity].
    assert (t = t') by (destruct t, t'; simpl in Et; congruence). subst t'.
    rewrite filter_app, (filter_code_none B rows), app_nil_r; [reflexivity |].
    intros r Hr Hc. apply Hno. simpl. apply in_map_iff. now exists r.
Qed.

(** An operation about [B] alone has the same answer and the same effect
    on the rows of [B] in two worlds that hold the same rows for [B], when
    the provider has no state. *)
Lemma step_about (B : pystr) (o : op REAL) (w ws : World REAL U) :
  stateless ak -> about B o -> same_rows B (db w) (db ws) ->
  fst (step ak o w) = fst (step ak o ws) /\
  same_rows B (db (snd (step ak o w))) (db (snd (step ak o ws))).
Proof.
  intros Hst Hab Hsame.
  destruct o as [t c | c | t rows | s | m | n]; try (split; [reflexivity | exact Hsame]).
  - assert (c = B) by (apply Hab; now left). subst c.
    rewrite !step_select_max. simpl. split; [| exact Hsame].
    unfold select_max_date. fold (rows_of B (db w) t). fold (rows_of B (db ws) t).
    now rewrite Hsame.
  - rewrite !step_upstream. simpl. split; [apply Hst | exact Hsame].
  - rewrite !step_to_sql.
    assert (Hall : forall r, In r rows -> ts_code r = B).
    { intros r Hr. apply Hab. simpl. apply in_map_iff. now exists r. }
    destruct (sql_insert_same_rows B rows (table_rows (db w) t) (table_rows (db ws) t)
                Hall (Hsame t)) as [[-> ->] | [-> ->]]; simpl.
    + split; [reflexivity | exact Hsame].
    + split; [reflexivity |]. intros t'. rewrite !rows_of_set_table.
      destruct (Table_eqb t t'); [| apply Hsame].
      rewrite !filter_app. f_equal. apply (Hsame t).
Qed.

Lemma within_task (args : Namespace) (code : pystr) :
  within 26 (about code) (task (REAL := REAL) args code).
Proof.
  intros ops res H. apply path_task in H.
  destruct H as (_ & ops1 & -> & Hl & Hf). split.
  - rewrite length_app. simpl. lia.
  - apply Forall_app. split.
    + eapply Forall_impl; [| exact Hf]. intros o [Ho _]. exact Ho.
    + constructor; [| constructor]. intros x [].
Qed.

Lemma count_tag_split (B c : pystr) (q : prog REAL unit)
    (l1 l2 : list (pystr * prog REAL unit)) :
  count_occ (list_eq_dec N.eq_dec) (map fst (l1 ++ (c, q) :: l2)) B
  = (count_occ (list_eq_dec N.eq_dec) (map fst l1) B
     + (if list_eq_dec N.eq_dec c B then 1 else 0)
     + count_occ (list_eq_dec N.eq_dec) (map fst l2) B)%nat.
Proof.
  rewrite map_app, count_occ_app. change (map fst ((c, q) :: l2)) with (c :: map fst l2).
  destruct (list_eq_dec N.eq_dec c B) as [E | E].
  - rewrite count_occ_cons_eq by assumption. cbv iota.
    rewrite <- Nat.add_assoc. reflexivity.
  - rewrite count_occ_cons_neq by assumption. cbv iota.
    rewrite Nat.add_0_r. reflexivity.
Qed.

Lemma count_tag_app (B : pystr) (l1 l2 : list (pystr * prog REAL unit)) :
  count_occ (list_eq_dec N.eq_dec) (map fst (l1 ++ l2)) B
  = (count_occ (list_eq_dec N.eq_dec) (map fst l1) B
     + count_occ (list_eq_dec N.eq_dec) (map fst l2) B)%nat.
Proof. now rewrite map_app, count_occ_app. Qed.

Lemma count_tag_zero (B : pystr) (q : prog REAL unit) (l : list (pystr * prog REAL unit)) :
  count_occ (list_eq_dec N.eq_dec) (map fst l) B = 0%nat -> ~ In (B, q) l.
Proof.
  intros H Hin. apply (count_occ_not_In (list_eq_dec N.eq_dec)) in H. apply H.
  apply in_map_iff. now exists (B, q).
Qed.

Lemma count_occ_single (B c : pystr) :
  count_occ (list_eq_dec N.eq_dec) [c] B
  = if list_eq_dec N.eq_dec c B then 1%nat else 0%nat.
Proof.
  destruct (list_eq_dec N.eq_dec c B) as [E | E].
  - now rewrite count_occ_cons_eq.
  - now rewrite count_occ_cons_neq.
Qed.

Lemma iso_inv_init (args : Namespace) (B : pystr) (w0 : World REAL U) :
  count_occ (list_eq_dec N.eq_dec) (arg_codes args) B = 1%nat ->
  iso_inv ak args B w0 (pool_init args w0).
Proof.
  intros H. split; [intros c q [] |].
  left. simpl. split; [assumption | split; [reflexivity | apply same_rows_refl]].
Qed.

Lemma iso_inv_idle (args : Namespace) (B : pystr) (w0 : World REAL U) (P : Pool REAL U) :
  iso_inv ak args B w0 P -> pool_idle P ->
  same_rows B (db (world P)) (db (snd (run ak (task args B) w0))).
Proof.
  intros [_ H] [Hp Hr]. cbv zeta in H. rewrite Hp, Hr in H. simpl in H.
  destruct H as [(H & _) | [(_ & H & _) | (_ & _ & H)]]; try discriminate.
  exact H.
Qed.

Lemma iso_inv_step (args : Namespace) (B : pystr) (w0 : World REAL U)
    (P P' : Pool REAL U) :
  stateless ak ->
  pool_step ak args P P' -> iso_inv ak args B w0 P -> iso_inv ak args B w0 P'.
Proof.
  intros Hst Hs [Htag Hph]. cbv zeta in Hph.
  destruct Hs as [c q ts w Hlt | q l1 l2 c o k r w w' E | q l1 l2 c w | q l1 l2 c e w];
    cbn [pending running world] in *.
  - (* a worker starts the task of [c] *)
    split.
    { intros c' q' Hin. apply in_app_or in Hin. destruct Hin as [Hin | [[= <- <-] | []]].
      - now apply Htag.
      - exists 26%nat. apply within_task. }
    cbv zeta. cbn [pending running world].
    rewrite (count_tag_app B ts [(c, task args c)]).
    change (map fst [(c, task (REAL := REAL) args c)]) with [c].
    rewrite count_occ_single.
    destruct (list_eq_dec N.eq_dec c B) as [-> | Hne].
    + rewrite count_occ_cons_eq in Hph by reflexivity.
      destruct Hph as [(Hnp & Hnb & Hsame) | [(Hnp & _) | (Hnp & _)]]; try discriminate.
      injection Hnp as Hnp.
      right. left. rewrite Hnb. split; [assumption | split; [reflexivity |]].
      intros q' Hin. apply in_app_or in Hin.
      destruct Hin as [Hin | [[= <-] | []]].
      * exfalso. revert Hin. now apply count_tag_zero.
      * exists w0. split; [assumption | apply same_rows_refl].
    + rewrite count_occ_cons_neq in Hph by assumption.
      rewrite Nat.add_0_r.
      destruct Hph as [(Hnp & Hnb & Hsame) | [(Hnp & Hnb & Hrun) | (Hnp & Hnb & Hsame)]].
      * left. split; [assumption | split; assumption].
      * right. left. split; [assumption | split; [assumption |]].
        intros q' Hin. apply in_app_or in Hin.
        destruct Hin as [Hin | [[= Hc _] | []]]; [now apply Hrun | congruence].
      * right. right. split; [assumption | split; assumption].
  - (* a worker performs the next operation of the task of [c] *)
    destruct (Htag c (Vis o k)) as [d Hd]; [apply in_elt |].
    apply within_vis_inv in Hd. destruct Hd as (Ho & d' & -> & Hk).
    assert (Hw' : w' = snd (step ak o w)) by now rewrite E.
    assert (Hr : r = fst (step ak o w)) by now rewrite E.
    split.
    { intros c' q' Hin. apply in_app_or in Hin. destruct Hin as [Hin | [[= <- <-] | Hin]].
      - apply Htag. apply in_or_app. now left.
      - exists d'. apply Hk.
      - apply Htag. apply in_or_app. right. now right. }
    cbv zeta. cbn [pending running world]. rewrite count_tag_split in *.
    destruct (list_eq_dec N.eq_dec c B) as [-> | Hne].
    + destruct Hph as [(_ & Hnb & _) | [(Hnp & Hnb & Hrun) | (_ & Hnb & _)]]; try lia.
      right. left. split; [assumption | split; [assumption |]].
      destruct (Hrun (Vis o k)) as (ws & Hsame & Hfin); [apply in_elt |].
      destruct (step_about B o w ws Hst Ho Hsame) as [Hans Hsame'].
      intros q' Hin. apply in_app_or in Hin.
      destruct Hin as [Hin | [[= <-] | Hin]].
      * exfalso. revert Hin. apply count_tag_zero. lia.
      * exists (snd (step ak o ws)). split; [now rewrite Hw' |].
        simpl in Hfin. rewrite Hr, Hans.
        destruct (step ak o ws) as [rs ws']. exact Hfin.
      * exfalso. revert Hin. apply count_tag_zero. lia.
    + assert (Hav : same_rows B (db w') (db w)).
      { rewrite Hw'. apply step_avoids. intros Hin. apply Hne. symmetry. now apply Ho. }
      destruct Hph as [(Hnp & Hnb & Hsame) | [(Hnp & Hnb & Hrun) | (Hnp & Hnb & Hsame)]].
      * left. split; [assumption | split; [assumption |]].
        eapply same_rows_trans; eassumption.
      * right. left. split; [assumption | split; [assumption |]].
        intros q' Hin.
        destruct (Hrun q') as (ws & Hsame & Hfin).
        { apply in_app_or in Hin. apply in_or_app.
          destruct Hin as [Hin | [[= Hc _] | Hin]]; [now left | congruence | right; now right]. }
        exists ws. split; [| assumption]. eapply same_rows_trans; eassumption.
      * right. right. split; [assumption | split; [assumption |]].
        eapply same_rows_trans; eassumption.
  - (* the task of [c] has returned *)
    split.
    { intros c' q' Hin. apply Htag. apply in_app_or in Hin. apply in_or_app.
      destruct Hin; [now left | right; now right]. }
    cbv zeta. cbn [pending running world].
    rewrite count_tag_split in Hph. rewrite count_tag_app.
    destruct (list_eq_dec N.eq_dec c B) as [-> | Hne].
    + destruct Hph as [(_ & Hnb & _) | [(Hnp & Hnb & Hrun) | (_ & Hnb & _)]]; try lia.
      right. right. split; [assumption | split; [lia |]].
      destruct (Hrun (Ret tt)) as (ws & Hsame & Hfin); [apply in_elt |].
      simpl in Hfin. eapply same_rows_trans; eassumption.
    + rewrite Nat.add_0_r in Hph.
      destruct Hph as [(Hnp & Hnb & Hsame) | [(Hnp & Hnb & Hrun) | (Hnp & Hnb & Hsame)]].
      * left. split; [assumption | split; assumption].
      * right. left. split; [assumption | split; [assumption |]].
        intros q' Hin. apply Hrun. apply in_app_or in Hin. apply in_or_app.
        destruct Hin; [now left | right; now right].
      * right. right. split; [assumption | split; assumption].
  - (* the task of [c] has raised *)
    split.
    { intros c' q' Hin. apply Htag. apply in_app_or in Hin. apply in_or_app.
      destruct Hin; [now left | right; now right]. }
    cbv zeta. cbn [pending running world].
    rewrite count_tag_split in Hph. rewrite count_tag_app.
    destruct (list_eq_dec N.eq_dec c B) as [-> | Hne].
    + destruct Hph as [(_ & Hnb & _) | [(Hnp & Hnb & Hrun) | (_ & Hnb & _)]]; try lia.
      right. right. split; [assumption | split; [lia |]].
      destruct (Hrun (Throw e)) as (ws & Hsame & Hfin); [apply in_elt |].
      simpl in Hfin. eapply same_rows_trans; eassumption.
    + rewrite Nat.add_0_r in Hph.
      destruct Hph as [(Hnp & Hnb & Hsame) | [(Hnp & Hnb & Hrun) | (Hnp & Hnb & Hsame)]].
      * left. split; [assumption | split; assumption].
      * right. left. split; [assumption | split; [assumption |]].
        intros q' Hin. apply Hrun. apply in_app_or in Hin. apply in_or_app.
        destruct Hin; [now left | right; now right].
      * right. right. split; [assumption | split; assumption].
Qed.

Lemma iso_inv_steps (args : Namespace) (B : pystr) (w0 : World REAL U) (n : nat)
    (P P' : Pool REAL U) :
  stateless ak ->
  pool_steps ak args n P P' -> iso_inv ak args B w0 P -> iso_inv ak args B w0 P'.
Proof.
  intros Hst. induction 1 as [P | n P1 P2 P3 H12 H23 IH]; intros Hinv; [assumption |].
  apply IH. eapply iso_inv_step; eassumption.
Qed.

(** When [main] is over, the rows stored for a code submitted once are
    those its task alone would have stored. *)
Lemma pool_isolation (args : Namespace) (B : pystr) (w0 : World REAL U) (n : nat)
    (P : Pool REAL U) :
  stateless ak ->
  count_occ (list_eq_dec N.eq_dec) (arg_codes args) B = 1%nat ->
  pool_steps ak args n (pool_init args w0) P ->
  pool_idle P ->
  same_rows B (db (world P)) (db (snd (run ak (task args B) w0))).
Proof.
  intros Hst Hc Hs Hidle. apply (iso_inv_idle args B w0 P); [| assumption].
  apply (iso_inv_steps args B w0 n (pool_init args w0) P Hst Hs).
  now apply iso_inv_init.
Qed.

(* ===================================================================== *)
(** ** The retry policy of the wrapped fetch *)
(* ===================================================================== *)

(** C5.  For every series kind the wrapped fetch ([fetch_daily],
    [fetch_weekly], [fetch_minute]) returns the provider's frame as soon
    as an attempt succeeds, after no, one or two failed attempts; when the
    provider fails three times in a row it has made exactly three calls,
    with a sleep of 2 seconds between two calls and none after the last,
    and raises [RetryError] carrying the exception of the third attempt.
    The database is not touched. *)
Theorem fetch_retry_bound (t : Table) (code start end_ : pystr) (w : World REAL U) :
  let c := fetch_call t code start end_ in
  let a1 := ak (up w) c in
  let a2 := ak (snd a1) c in
  let a3 := ak (snd a2) c in
  let out := run ak (fetch_of t code start end_) w in
  (forall df, fst a1 = Ok df ->
     fst out = Ok df /\ trace (snd out) = trace w ++ [Upstream c]) /\
  (forall e1 df, fst a1 = Raise e1 -> fst a2 = Ok df ->
     fst out = Ok df /\
     trace (snd out) = trace w ++ [Upstream c; Sleep 2; Upstream c]) /\
  (forall e1 e2 df, fst a1 = Raise e1 -> fst a2 = Raise e2 -> fst a3 = Ok df ->
     fst out = Ok df /\
     trace (snd out) = trace w ++ [Upstream c; Sleep 2; Upstream c; Sleep 2; Upstream c]) /\
  (forall e1 e2 e3, fst a1 = Raise e1 -> fst a2 = Raise e2 -> fst a3 = Raise e3 ->
     fst out = Raise (RetryError e3) /\
     trace (snd out) = trace w ++ [Upstream c; Sleep 2; Upstream c; Sleep 2; Upstream c]) /\
  db (snd out) = db w.
Proof.
  cbv zeta. rewrite fetch_of_retry, run_retry_call. cbv zeta.
  set (c := fetch_call t code start end_).
  change (up (after_call ak c w)) with (snd (ak (up w) c)).
  change (up (after_call ak c (after_sleep 2 (after_call ak c w))))
    with (snd (ak (snd (ak (up w) c)) c)).
  split; [| split; [| split; [| split]]].
  - intros df H. rewrite H. split; reflexivity.
  - intros e1 df H1 H2. rewrite H1, H2. simpl. rewrite <- !app_assoc.
    split; reflexivity.
  - intros e1 e2 df H1 H2 H3. rewrite H1, H2, H3. simpl. rewrite <- !app_assoc.
    split; reflexivity.
  - intros e1 e2 e3 H1 H2 H3. rewrite H1, H2, H3. simpl. rewrite <- !app_assoc.
    split; reflexivity.
  - destruct (fst (ak (up w) c)); [reflexivity |].
    destruct (fst (ak (snd (ak (up w) c)) c)); [reflexivity |].
    destruct (fst (ak (snd (ak (snd (ak (up w) c)) c)) c)); reflexivity.
Qed.

(* ===================================================================== *)
(** ** An empty frame *)
(* ===================================================================== *)




(* ===================================================================== *)
(** ** Writes and the primary key *)
(* ===================================================================== *)



(* ===================================================================== *)
(** ** The start of the fetch window *)
(* ===================================================================== *)

(** C4 (as amended).  Every call [download_stock] makes to the provider
    is the call of one series kind for the code and the requested end
    date, and its start date is: the requested start when nothing is
    stored for the code in that kind's table; the greatest timestamp
    stored for the code in that table when there is one and it is not
    the empty string; the requested start when that greatest timestamp
    is the empty string. *)
Theorem fetch_window_start (code start end_ : pystr) (sleep_time : Q)
    (w : World REAL U) (ops : list (op REAL)) (c : ak_call) :
  trace (snd (run ak (download_stock code start end_ sleep_time) w)) = trace w ++ ops ->
  In (Upstream c) ops ->
  exists t,
    c = fetch_call t code (call_start c) end_ /\
    (stored_dates (db w) t code = [] -> call_start c = start) /\
    (forall T, is_last_stored (db w) t code T -> T <> [] -> call_start c = T) /\
    (is_last_stored (db w) t code [] -> call_start c = start).
Proof.
  intros Hops Hin.
  destruct (run_download_stock_ops code start end_ sleep_time w) as (ops' & Htr & Hk).
  rewrite Hops in Htr. apply app_inv_head in Htr. subst ops'.
  destruct (kinds_ops_In _ _ _ _ _ _ _ _ _ Hk Hin) as (t & b' & o' & _ & Hk' & Hin').
  destruct (kind_ops_In _ _ _ _ _ _ _ _ _ Hk' Hin')
    as [H | [H | [H | [H | (df & _ & _ & H)]]]]; try discriminate.
  injection H as ->.
  assert (Hs : call_start (fetch_call t code (effective_start (db w) t code start) end_)
               = effective_start (db w) t code start) by (destruct t; reflexivity).
  exists t. rewrite Hs. split; [reflexivity | split; [| split]].
  - apply effective_start_nothing_stored.
  - intros T HT Hne. rewrite (effective_start_last_stored _ _ _ _ T HT).
    destruct T; [congruence | reflexivity].
  - intros HT. now rewrite (effective_start_last_stored _ _ _ _ [] HT).
Qed.

(* ===================================================================== *)
(** ** The order of the series kinds *)
(* ===================================================================== *)


(* ===================================================================== *)
(** ** Failures at the task boundary, and the pool *)
(* ===================================================================== *)

Lemma run_task (args : Namespace) (code : pystr) (w : World REAL U) :
  run ak (task args code) w =
  match run ak (download_stock code (arg_start args) (arg_end args) (arg_sleep args)) w with
  | (Ok _, w') =>
      (Ok tt, mkWorld (db w') (up w') (trace w' ++ [PbarUpdate 1]))
  | (Raise exc, w') =>
      (Ok tt, mkWorld (db w') (up w')
                (trace w' ++ [Print (FailedToDownload code exc); PbarUpdate 1]))
  end.
Proof.
  unfold task. rewrite run_try_finally, run_try_except.
  destruct (run ak (download_stock code (arg_start args) (arg_end args) (arg_sleep args)) w)
    as [[[] | exc] w']; simpl; [reflexivity |].
  rewrite <- app_assoc. reflexivity.
Qed.


(* ===================================================================== *)
(** ** The size of the pool *)
(* ===================================================================== *)

(** C9.  [thread_count] is the requested number of threads clamped into
    1..300: 1 for a request below 1, 300 for a request above 300, the
    request itself in between; and the pool never has more tasks running
    than [thread_count]. *)
Theorem thread_count_clamped (args : Namespace) :
  (1 <= thread_count args <= 300)%Z /\
  ((arg_threads args < 1)%Z -> thread_count args = 1%Z) /\
  ((300 < arg_threads args)%Z -> thread_count args = 300%Z) /\
  ((1 <= arg_threads args <= 300)%Z -> thread_count args = arg_threads args) /\
  (forall (w : World REAL U) n P,
      pool_steps ak args n (pool_init args w) P ->
      (Z.of_nat (length (running P)) <= thread_count args)%Z).
Proof.
  unfold thread_count, MAX_THREADS.
  split; [lia | split; [lia | split; [lia | split; [lia |]]]].
  intros w n P Hs.
  apply (pool_steps_running_bound args n (pool_init args w) P Hs).
  simpl. fold MAX_THREADS. fold (thread_count args).
  pose proof (thread_count_positive args). lia.
Qed.

(* ===================================================================== *)
(** ** A fetch that fails *)
(* ===================================================================== *)

(** The wrapped fetch of a call the provider never answers. *)
Lemma run_retry_call_raises (c : ak_call) (w : World REAL U) :
  (forall u, exists e, fst (ak u c) = Raise e) ->
  exists e,
    run ak (retry 2 3 (upstream c)) w =
    (Raise (RetryError e),
     after_call ak c (after_sleep 2 (after_call ak c (after_sleep 2 (after_call ak c w))))).
Proof.
  intros H. rewrite run_retry_call. cbv zeta.
  destruct (H (up w)) as [e1 ->].
  destruct (H (up (after_call ak c w))) as [e2 ->].
  destruct (H (up (after_call ak c (after_sleep 2 (after_call ak c w))))) as [e3 ->].
  now exists e3.
Qed.

(** C3 (as amended).  A wrapped fetch that raises in one paragraph of
    [download_stock] ends [download_stock] there with that exception: the
    paragraphs after it are not run.  So for a code whose weekly fetch
    always raises, the daily paragraph is run as usual and, when it comes
    to its end, is followed by the weekly query and three calls, after
    which [download_stock] raises [RetryError]: nothing is asked, fetched
    or written for [minute].  The exception is caught by [task], which
    prints it with the code and returns.  And another code of the same
    run, submitted once, ends with the rows its task alone would have
    stored, whatever the other tasks do, when the provider's answers do
    not depend on the calls made before. *)
Theorem fetch_failure_stops_entity (args : Namespace) (code : pystr) (w : World REAL U) :
  let start := arg_start args in
  let end_ := arg_end args in
  let sleep_time := arg_sleep args in
  let d := run ak (sync_kind daily code start end_ sleep_time) w in
  let out := run ak (download_stock code start end_ sleep_time) w in
  let cw := fetch_call weekly code (effective_start (db w) weekly code start) end_ in
  (forall (A : Type) (t : Table) (rest : prog REAL A) (w1 w2 : World REAL U) (e : exn),
      run ak (fetch_of t code (effective_start (db w1) t code start) end_)
        (after_select t code w1) = (Raise e, w2) ->
      run ak (sync_kind_then t code start end_ sleep_time rest) w1 = (Raise e, w2)) /\
  ((forall u c, call_table c = Some weekly -> call_symbol c = code ->
                exists e, fst (ak u c) = Raise e) ->
   (forall e, fst d = Raise e -> out = d) /\
   (fst d = Ok tt ->
    exists e,
      fst out = Raise (RetryError e) /\
      db (snd out) = db (snd d) /\
      trace (snd out) =
      trace (snd d) ++ [SelectMax weekly code; Upstream cw; Sleep 2; Upstream cw;
                        Sleep 2; Upstream cw])) /\
  (forall e, fst out = Raise e ->
     run ak (task args code) w =
     (Ok tt, mkWorld (db (snd out)) (up (snd out))
               (trace (snd out) ++ [Print (FailedToDownload code e); PbarUpdate 1]))) /\
  (stateless ak ->
   forall (B : pystr) (n : nat) (P : Pool REAL U),
     count_occ (list_eq_dec N.eq_dec) (arg_codes args) B = 1%nat ->
     pool_steps ak args n (pool_init args w) P ->
     pool_idle P ->
     same_rows B (db (world P)) (db (snd (run ak (task args B) w)))).
Proof.
  cbv zeta. split; [| split; [| split]].
  - intros A t rest w1 w2 e H. rewrite run_sync_kind_then, H. reflexivity.
  - intros Hweekly. rewrite download_stock_unfold, run_sync_kind_seq.
    destruct (run_sync_kind_ops daily code (arg_start args) (arg_end args)
                (arg_sleep args) w) as (o1 & _ & _ & Hother).
    destruct (run ak (sync_kind daily code (arg_start args) (arg_end args)
                        (arg_sleep args)) w) as [[[] | e1] w1]; cbn [fst snd] in *.
    + split; [intros e [=] |]. intros _.
      rewrite run_sync_kind_then, fetch_of_retry.
      rewrite (effective_start_ext (db w1) (db w)) by (apply Hother; discriminate).
      destruct (run_retry_call_raises
                  (fetch_call weekly code
                     (effective_start (db w) weekly code (arg_start args)) (arg_end args))
                  (after_select weekly code w1)) as [e He].
      { intros u.
        apply Hweekly; [apply call_table_fetch_call | apply call_symbol_fetch_call]. }
      rewrite He. exists e. cbn [fst snd after_call after_sleep after_select db trace].
      split; [reflexivity | split; [reflexivity |]].
      rewrite <- !app_assoc. reflexivity.
    + split; [intros e _; reflexivity | intros [=]].
  - intros e He. rewrite run_task.
    destruct (run ak (download_stock code (arg_start args) (arg_end args) (arg_sleep args)) w)
      as [[[] | e'] w']; simpl in *; [discriminate |].
    now injection He as ->.
  - intros Hst B n P. apply pool_isolation. exact Hst.
Qed.

(* ===================================================================== *)
(** ** The web front-end's codes *)
(* ===================================================================== *)

Section FlaskProperties.

Variable unicode_isdigit : N -> bool.
Variable unicode_isspace : N -> bool.

(** The signs that [zfill] looks for are no digits. *)
Hypothesis sign_not_digit :
  unicode_isdigit (ord "+") = false /\ unicode_isdigit (ord "-") = false.

Lemma isdigit_all (s : pystr) :
  s <> [] -> (forall c, In c s -> unicode_isdigit c = true) ->
  isdigit unicode_isdigit s = true.
Proof.
  intros Hne Hall. destruct s as [| c s]; [congruence |].
  unfold isdigit. apply forallb_forall. exact Hall.
Qed.

Lemma isdigit_some_not (s : pystr) (c : N) :
  In c s -> unicode_isdigit c = false -> isdigit unicode_isdigit s = false.
Proof.
  intros Hin Hc. destruct s as [| c0 s]; [reflexivity |].
  unfold isdigit. apply not_true_is_false. intros H.
  rewrite forallb_forall in H. rewrite (H c Hin) in Hc. discriminate.
Qed.

Lemma zfill_digits (s : pystr) (width : nat) :
  (forall c, In c s -> unicode_isdigit c = true) ->
  zfill s width = repeat (ord "0") (width - length s) ++ s.
Proof.
  intros Hall. unfold zfill. destruct s as [| c s]; [now rewrite app_nil_r |].
  assert (Hc : unicode_isdigit c = true) by (apply Hall; now left).
  destruct sign_not_digit as [Hplus Hminus].
  destruct (N.eqb c (ord "+")) eqn:E1.
  { apply N.eqb_eq in E1. congruence. }
  destruct (N.eqb c (ord "-")) eqn:E2.
  { apply N.eqb_eq in E2. congruence. }
  reflexivity.
Qed.

Lemma startswith_6 (s : pystr) :
  startswith s (str "6") = true <-> exists rest, s = ord "6" :: rest.
Proof.
  change (str "6") with [ord "6"].
  destruct s as [| c s]; simpl startswith.
  - split; [discriminate | intros [rest [=]]].
  - replace (startswith s []) with true by (destruct s; reflexivity).
    rewrite andb_true_r. split.
    + intros H. apply N.eqb_eq in H. subst c. now exists s.
    + intros [rest [= -> _]]. reflexivity.
Qed.

Lemma download_loop_cons (c : pystr) (rest : list pystr) (start end_ : pystr)
    (downloaded : list pystr) :
  download_loop (REAL := REAL) unicode_isdigit unicode_isspace (c :: rest) start end_
    downloaded =
  let symbol := adapt_code unicode_isdigit unicode_isspace c in
  if negb (truthy symbol)
  then download_loop unicode_isdigit unicode_isspace rest start end_ downloaded
  else
    bind
      (try_except
         (bind (download_stock symbol start end_ DEFAULT_SLEEP)
            (fun _ => Ret (downloaded ++ [symbol])))
         (fun exc => bind (print (FailedSymbol symbol exc)) (fun _ => Ret downloaded)))
      (fun downloaded' =>
         download_loop unicode_isdigit unicode_isspace rest start end_ downloaded').
Proof. reflexivity. Qed.

Lemma within_download_loop (all codes : list pystr) (start end_ : pystr)
    (downloaded : list pystr) :
  (forall c, In c codes -> In c all) ->
  within (25 * length codes) (normalised_op unicode_isdigit unicode_isspace all)
    (download_loop (REAL := REAL) unicode_isdigit unicode_isspace codes start end_
       downloaded).
Proof.
  revert downloaded. induction codes as [| c codes IH]; intros downloaded Hsub.
  - apply within_ret.
  - assert (Hsub' : forall c', In c' codes -> In c' all)
      by (intros c' Hc'; apply Hsub; now right).
    rewrite download_loop_cons. cbv zeta.
    destruct (truthy (adapt_code unicode_isdigit unicode_isspace c)) eqn:Et; simpl negb.
    + cbv iota.
      replace (25 * length (c :: codes))%nat with (25 + 25 * length codes)%nat
        by (simpl; lia).
      apply within_bind; [| intros d; now apply IH].
      assert (Hop : forall o,
                 sync_op (REAL := REAL) (adapt_code unicode_isdigit unicode_isspace c) o ->
                 normalised_op unicode_isdigit unicode_isspace all o).
      { intros o [Ho _] x Hx. rewrite (Ho x Hx). split.
        - intros E. rewrite E in Et. discriminate.
        - exists c. split; [apply Hsub; now left | reflexivity]. }
      apply (within_try_except 24 1).
      * apply (within_bind 24 0).
        -- eapply within_weaken; [| exact Hop | apply within_download_stock]. lia.
        -- intros _. apply within_ret.
      * intros exc. apply (within_bind 1 0); [| intros _; apply within_ret].
        apply within_vis; [| intros _; apply within_ret]. intros x [].
    + cbv iota. eapply within_weaken; [| | apply IH; assumption].
      * simpl. lia.
      * auto.
Qed.

(** C10.  [adapt_code] returns the empty string when the stripped input
    has a character that is no digit (and when it is empty).  For a
    stripped input made of digits it returns [sh] or [sz], according to
    whether the stripped input starts with 6 or not, followed by the
    stripped input with zeros on its left up to 6 characters.  And every
    code that [download] hands to [download_stock], so every code an
    operation of [download] is about, is such a normalisation of one of
    the given codes, and is not empty. *)
Theorem adapt_code_normalises (code : pystr) :
  let s := strip unicode_isspace code in
  let adapted := adapt_code unicode_isdigit unicode_isspace code in
  ((exists c, In c s /\ unicode_isdigit c = false) -> adapted = []) /\
  (s = [] -> adapted = []) /\
  (s <> [] -> (forall c, In c s -> unicode_isdigit c = true) ->
   ((exists rest, s = ord "6" :: rest) ->
    adapted = str "sh" ++ repeat (ord "0") (6 - length s) ++ s) /\
   ((forall rest, s <> ord "6" :: rest) ->
    adapted = str "sz" ++ repeat (ord "0") (6 - length s) ++ s)) /\
  (forall (codes : list pystr) (start end_ : pystr) (w : World REAL U)
          (ops : list (op REAL)) (o : op REAL) (x : pystr),
      trace (snd (run ak (download unicode_isdigit unicode_isspace codes start end_) w))
      = trace w ++ ops ->
      In o ops -> In x (op_codes o) ->
      x <> [] /\
      exists c, In c codes /\ x = adapt_code unicode_isdigit unicode_isspace c).
Proof.
  cbv zeta. unfold adapt_code. split; [| split; [| split]].
  - intros (c & Hin & Hc). now rewrite (isdigit_some_not _ c Hin Hc).
  - intros ->. reflexivity.
  - intros Hne Hall. rewrite (isdigit_all _ Hne Hall). simpl negb. cbv iota.
    rewrite (zfill_digits _ 6 Hall). split.
    + intros H6. apply startswith_6 in H6. now rewrite H6.
    + intros Hn6. destruct (startswith (strip unicode_isspace code) (str "6")) eqn:E;
        [| reflexivity].
      apply startswith_6 in E. destruct E as [rest E]. now apply Hn6 in E.
  - intros codes start end_ w ops o x Htr Hin Hx.
    destruct (run_path (download unicode_isdigit unicode_isspace codes start end_) w)
      as (ops' & Htr' & Hp).
    rewrite Htr in Htr'. apply app_inv_head in Htr'. subst ops'.
    assert (Hw : within (25 * length codes + 0) (normalised_op unicode_isdigit unicode_isspace codes)
                   (download (REAL := REAL) unicode_isdigit unicode_isspace codes
                      start end_)).
    { unfold download. apply within_bind; [| intros d; apply within_ret].
      apply within_download_loop. auto. }
    destruct (Hw _ _ Hp) as [_ Hf]. rewrite Forall_forall in Hf.
    apply (Hf o Hin x Hx).
Qed.

End FlaskProperties.

(* ===================================================================== *)
(** ** Further properties: the store *)
(* ===================================================================== *)




Lemma set_table_same_rows (s : Store REAL) (t : Table) :
  set_table s t (table_rows s t) = s.
Proof. destruct s, t; reflexivity. Qed.


(** Whatever is run, a table keeps its rows and gets rows after them;
    when the operations are all about one code, so are the new rows. *)
Lemma run_appends {A : Type} (p : prog REAL A) (code : pystr) (n : nat)
    (w : World REAL U) (t : Table) :
  within n (about code) p ->
  exists extra,
    table_rows (db (snd (run ak p w))) t = table_rows (db w) t ++ extra /\
    Forall (fun r => ts_code r = code) extra.
Proof.
  revert n w. induction p as [a | e | o k IH]; intros n w Hw; simpl.
  - exists []. split; [now rewrite app_nil_r | constructor].
  - exists []. split; [now rewrite app_nil_r | constructor].
  - apply within_vis_inv in Hw. destruct Hw as (Ho & n' & -> & Hk).
    assert (Hstep : exists extra0,
               table_rows (db (snd (step ak o w))) t = table_rows (db w) t ++ extra0 /\
               Forall (fun r => ts_code r = code) extra0).
    { destruct o as [t0 c | c | t0 rows | s0 | m | z];
        try (exists []; split; [now rewrite app_nil_r | constructor]).
      - exists []. rewrite step_upstream. split; [now rewrite app_nil_r | constructor].
      - rewrite step_to_sql.
        destruct (sql_insert (table_rows (db w) t0) rows) as [rows' |] eqn:E; simpl.
        + apply sql_insert_Some in E. subst rows'.
          destruct (Table_eqb t0 t) eqn:Et.
          * assert (t0 = t) by (destruct t0, t; simpl in Et; congruence). subst t0.
            exists rows. rewrite table_rows_set_table_same. split; [reflexivity |].
            apply Forall_forall. intros r Hr. apply Ho. simpl.
            apply in_map_iff. now exists r.
          * exists []. rewrite app_nil_r. split; [| constructor].
            apply table_rows_set_table_other. intros ->.
            destruct t0; discriminate.
        + exists []. split; [now rewrite app_nil_r | constructor]. }
    destruct Hstep as (extra0 & H0 & F0).
    destruct (step ak o w) as [r w1]. simpl in H0.
    destruct (IH r n' w1 (Hk r)) as (extra1 & H1 & F1).
    exists (extra0 ++ extra1). rewrite H1, H0, app_assoc.
    split; [reflexivity | now apply Forall_app].
Qed.

Lemma within_download_stock_about (code start end_ : pystr) (sleep_time : Q) :
  within 24 (about code) (download_stock (REAL := REAL) code start end_ sleep_time).
Proof.
  eapply within_weaken; [| | apply within_download_stock]; [lia |].
  intros o [Ho _]. exact Ho.
Qed.

(** X2.  [download_stock] only appends.  In every table the rows stored
    before are still there after it, in the same order and with the same
    values, followed by the new rows, which all carry the code that was
    downloaded; so the rows of every other code are exactly as before,
    whether [download_stock] returns or raises. *)
Theorem download_stock_appends_only (code start end_ : pystr) (sleep_time : Q)
    (w : World REAL U) :
  let out := run ak (download_stock code start end_ sleep_time) w in
  (forall t, exists extra,
      table_rows (db (snd out)) t = table_rows (db w) t ++ extra /\
      Forall (fun r => ts_code r = code) extra) /\
  (forall other, other <> code -> same_rows other (db (snd out)) (db w)).
Proof.
  cbv zeta.
  pose proof (within_download_stock_about code start end_ sleep_time) as Hw.
  split.
  - intros t. apply (run_appends _ code 24 w t Hw).
  - intros other Hne t. unfold rows_of.
    destruct (run_appends _ code 24 w t Hw) as (extra & -> & Hf).
    rewrite filter_app, (filter_code_none other extra), app_nil_r; [reflexivity |].
    intros r Hr. rewrite Forall_forall in Hf. rewrite (Hf r Hr). congruence.
Qed.

Lemma stored_dates_app (s s' : Store REAL) (t : Table) (code : pystr)
    (extra : list (Row REAL)) :
  table_rows s' t = table_rows s t ++ extra ->
  forall d, In d (stored_dates s t code) -> In d (stored_dates s' t code).
Proof.
  intros H d Hd. unfold stored_dates in *. rewrite H, filter_app, map_app.
  apply in_or_app. now left.
Qed.

(** X3.  The watermark never goes back.  Whatever [download_stock] does
    for a code, for every table and every code the greatest timestamp
    stored after it is at least the greatest timestamp stored before. *)
Theorem watermark_never_goes_back (code start end_ : pystr) (sleep_time : Q)
    (w : World REAL U) (t : Table) (any T T' : pystr) :
  is_last_stored (db w) t any T ->
  is_last_stored (db (snd (run ak (download_stock code start end_ sleep_time) w)))
    t any T' ->
  str_leb T T' = true.
Proof.
  intros [Hin _] [_ Hmax]. apply Hmax.
  destruct (run_appends _ code 24 w t
              (within_download_stock_about code start end_ sleep_time))
    as (extra & He & _).
  now apply (stored_dates_app (db w) _ t any extra He).
Qed.


(* ===================================================================== *)
(** ** Further properties: how much one download does *)
(* ===================================================================== *)

Lemma count_ops_app (f : op REAL -> bool) (l1 l2 : list (op REAL)) :
  count_ops f (l1 ++ l2) = (count_ops f l1 + count_ops f l2)%nat.
Proof. unfold count_ops. now rewrite filter_app, length_app. Qed.

Lemma slept_app (l1 l2 : list (op REAL)) :
  (slept (l1 ++ l2) == slept l1 + slept l2)%Q.
Proof.
  induction l1 as [| o l1 IH]; simpl; [lra |].
  destruct o; try exact IH. rewrite IH. lra.
Qed.

Lemma fetch_ops_bounds (c : ak_call) (f : list (op REAL)) :
  fetch_ops c f ->
  (1 <= count_ops is_call f <= 3)%nat /\
  count_ops is_insert f = 0%nat /\
  count_ops is_query f = 0%nat /\
  (0 <= slept f <= 4)%Q.
Proof.
  intros H. destruct H; unfold count_ops; simpl; repeat split; try lia; lra.
Qed.

Lemma kind_ops_bounds (s : Store REAL) (code start end_ : pystr) (sleep_time : Q)
    (t : Table) (b : bool) (ops : list (op REAL)) :
  (0 <= sleep_time)%Q ->
  kind_ops ak s code start end_ sleep_time t b ops ->
  (1 <= count_ops is_call ops <= 3)%nat /\
  (count_ops is_insert ops <= 1)%nat /\
  count_ops is_query ops = 1%nat /\
  (0 <= slept ops <= 4 + sleep_time)%Q.
Proof.
  intros Hs H.
  destruct H as [f Hf | f Hf | f df Hf Ha Hne | f df Hf Ha Hne];
    destruct (fetch_ops_bounds _ _ Hf) as (Hc & Hi & Hq & Hsl);
    match goal with
    | |- context [SelectMax t code :: ?l] =>
        change (SelectMax t code :: l) with ([SelectMax (REAL := REAL) t code] ++ l)
    end;
    rewrite ?count_ops_app, ?slept_app; unfold count_ops in *; simpl;
    repeat split; try lia; try lra.
Qed.

Lemma kinds_ops_bounds (s : Store REAL) (code start end_ : pystr) (sleep_time : Q)
    (ts : list Table) (b : bool) (ops : list (op REAL)) :
  (0 <= sleep_time)%Q ->
  kinds_ops ak s code start end_ sleep_time ts b ops ->
  (count_ops is_call ops <= 3 * length ts)%nat /\
  (count_ops is_insert ops <= length ts)%nat /\
  (count_ops is_query ops <= length ts)%nat /\
  (0 <= slept ops <= (4 + sleep_time) * inject_Z (Z.of_nat (length ts)))%Q.
Proof.
  intros Hs H. induction H as [| t ts o Hk | t ts b o os Hk Hks IH].
  - unfold count_ops. cbn [filter length slept Z.of_nat Nat.mul].
    change (inject_Z 0) with 0%Q. repeat split; try lia; lra.
  - destruct (kind_ops_bounds _ _ _ _ _ _ _ _ Hs Hk) as (Hc & Hi & Hq & Hsl).
    assert (Hn : (1 <= inject_Z (Z.of_nat (length (t :: ts))))%Q).
    { change 1%Q with (inject_Z 1). rewrite <- Zle_Qle. cbn [length]. lia. }
    cbn [length] in *. repeat split; try lia; try lra. nra.
  - destruct (kind_ops_bounds _ _ _ _ _ _ _ _ Hs Hk) as (Hc & Hi & Hq & Hsl).
    destruct IH as (Hc' & Hi' & Hq' & Hsl').
    rewrite !count_ops_app, slept_app.
    assert (Hn : (inject_Z (Z.of_nat (length (t :: ts)))
                  == 1 + inject_Z (Z.of_nat (length ts)))%Q).
    { cbn [length]. rewrite Nat2Z.inj_succ, <- Z.add_1_l, inject_Z_plus. reflexivity. }
    rewrite Hn. cbn [length]. repeat split; try lia; try lra.
Qed.

(** X5.  One run of [download_stock], whatever the provider does, calls
    the provider at most 9 times, asks the database at most 3 times,
    makes at most 3 inserts, and sleeps at most 12 seconds plus three
    times the pause between requests. *)
Theorem download_stock_effort (code start end_ : pystr) (sleep_time : Q)
    (w : World REAL U) (ops : list (op REAL)) :
  (0 <= sleep_time)%Q ->
  trace (snd (run ak (download_stock code start end_ sleep_time) w)) = trace w ++ ops ->
  (count_ops is_call ops <= 9)%nat /\
  (count_ops is_query ops <= 3)%nat /\
  (count_ops is_insert ops <= 3)%nat /\
  (slept ops <= 12 + 3 * sleep_time)%Q.
Proof.
  intros Hs Hops.
  destruct (run_download_stock_ops code start end_ sleep_time w) as (ops' & Htr & Hk).
  rewrite Hops in Htr. apply app_inv_head in Htr. subst ops'.
  destruct (kinds_ops_bounds _ _ _ _ _ _ _ _ Hs Hk) as (Hc & Hi & Hq & Hsl).
  cbn [length Nat.mul Nat.add] in *.
  change (inject_Z (Z.of_nat 3)) with 3%Q in Hsl. repeat split; try lia. lra.
Qed.

(* ===================================================================== *)
(** ** Further properties: the pool *)
(* ===================================================================== *)

Lemma one_thread (l1 l2 : list (pystr * prog REAL unit)) (x : pystr * prog REAL unit) :
  (length (l1 ++ x :: l2) <= 1)%nat -> l1 = [] /\ l2 = [].
Proof.
  rewrite length_app. simpl. intros H.
  destruct l1; [| simpl in H; lia]. destruct l2; [| simpl in H; lia]. split; reflexivity.
Qed.

(** With one worker a move of the pool does not change where it ends. *)
Lemma single_worker_step (args : Namespace) (P P' : Pool REAL U) :
  thread_count args = 1%Z ->
  pool_step ak args P P' ->
  (length (running P) <= 1)%nat ->
  (length (running P') <= 1)%nat /\
  single_worker_end ak args P' = single_worker_end ak args P.
Proof.
  intros Htc Hs Hlen.
  destruct Hs as [c q ts w Hlt | q l1 l2 c o k r w w' E | q l1 l2 c w | q l1 l2 c e w];
    cbn [pending running world] in *.
  - rewrite Htc in Hlt. destruct ts as [| x ts]; [| simpl in Hlt; lia].
    split; [simpl; lia | reflexivity].
  - destruct (one_thread _ _ _ Hlen) as [-> ->].
    split; [simpl; lia |]. unfold single_worker_end. cbn [pending running world app].
    simpl run. rewrite E. reflexivity.
  - destruct (one_thread _ _ _ Hlen) as [-> ->].
    split; [simpl; lia | reflexivity].
  - destruct (one_thread _ _ _ Hlen) as [-> ->].
    split; [simpl; lia | reflexivity].
Qed.

Lemma single_worker_steps (args : Namespace) (n : nat) (P P' : Pool REAL U) :
  thread_count args = 1%Z ->
  pool_steps ak args n P P' ->
  (length (running P) <= 1)%nat ->
  single_worker_end ak args P' = single_worker_end ak args P.
Proof.
  intros Htc Hs. induction Hs as [P | n P1 P2 P3 H12 H23 IH]; intros Hlen;
    [reflexivity |].
  destruct (single_worker_step args P1 P2 Htc H12 Hlen) as [Hlen2 He].
  rewrite IH by assumption. exact He.
Qed.

(** X6.  With one thread requested (or fewer) the codes are processed one
    after the other in the order given: whatever the scheduler does, when
    the pool is idle the world is the one obtained by running the tasks
    in a row. *)
Theorem single_worker_is_sequential (args : Namespace) (w : World REAL U) (n : nat)
    (P : Pool REAL U) :
  (arg_threads args <= 1)%Z ->
  pool_steps ak args n (pool_init args w) P ->
  pool_idle P ->
  world P = run_tasks ak args (arg_codes args) w.
Proof.
  intros Ht Hs [Hp Hr].
  assert (Htc : thread_count args = 1%Z) by (unfold thread_count, MAX_THREADS; lia).
  pose proof (single_worker_steps args n _ _ Htc Hs) as H.
  unfold single_worker_end in H. rewrite Hp, Hr in H. simpl in H.
  apply H. lia.
Qed.

(** One operation about a code of [codes]: what it adds to a table. *)
Lemma step_appends (codes : list pystr) (c : pystr) (o : op REAL) (w : World REAL U)
    (t : Table) :
  In c codes -> about c o ->
  exists extra,
    table_rows (db (snd (step ak o w))) t = table_rows (db w) t ++ extra /\
    Forall (fun r => In (ts_code r) codes) extra.
Proof.
  intros Hc Ho.
  assert (Hw : within 1 (about c) (Vis o (fun r => Ret r))).
  { apply within_vis; [assumption | intros r; apply within_ret]. }
  destruct (run_appends _ c 1 w t Hw) as (extra & He & Hf).
  simpl in He. destruct (step ak o w) as [r w1]. simpl in *.
  exists extra. split; [assumption |].
  eapply Forall_impl; [| exact Hf]. simpl. intros x ->. assumption.
Qed.

Lemma pool_codes_ok_init (args : Namespace) (w : World REAL U) :
  pool_codes_ok (arg_codes args) (pool_init args w).
Proof. split; [auto | intros c q []]. Qed.

(** A move of the pool: it holds codes of [codes] only, before and after;
    the tables keep their rows and get rows of [codes]; the operation
    made, if any, mentions codes of [codes] only. *)
Lemma pool_step_grows (args : Namespace) (codes : list pystr) (P P' : Pool REAL U) :
  pool_step ak args P P' ->
  pool_codes_ok codes P ->
  pool_codes_ok codes P' /\
  (forall t, exists extra,
      table_rows (db (world P')) t = table_rows (db (world P)) t ++ extra /\
      Forall (fun r => In (ts_code r) codes) extra) /\
  (exists ops,
      trace (world P') = trace (world P) ++ ops /\
      Forall (fun o => forall x, In x (op_codes o) -> In x codes) ops).
Proof.
  intros Hs [Hpend Hrun].
  assert (Hsame : forall w : World REAL U,
             (forall t, exists extra,
                 table_rows (db w) t = table_rows (db w) t ++ extra /\
                 Forall (fun r => In (ts_code r) codes) extra) /\
             (exists ops : list (op REAL),
                 trace w = trace w ++ ops /\
                 Forall (fun o => forall x, In x (op_codes o) -> In x codes) ops)).
  { intros w. split.
    - intros t. exists []. split; [now rewrite app_nil_r | constructor].
    - exists []. split; [now rewrite app_nil_r | constructor]. }
  destruct Hs as [c q ts w Hlt | q l1 l2 c o k r w w' E | q l1 l2 c w | q l1 l2 c e w];
    cbn [pending running world] in *.
  - split; [| apply Hsame]. split.
    + intros c' Hc'. apply Hpend. now right.
    + intros c' q' Hin. apply in_app_or in Hin.
      destruct Hin as [Hin | [[= <- <-] | []]]; [now apply Hrun |].
      split; [apply Hpend; now left |]. exists 26%nat. apply within_task.
  - destruct (Hrun c (Vis o k)) as (Hc & d & Hd); [apply in_elt |].
    apply within_vis_inv in Hd. destruct Hd as (Ho & d' & -> & Hk).
    assert (Hw' : w' = snd (step ak o w)) by now rewrite E.
    split; [| split].
    + split; [assumption |].
      intros c' q' Hin. apply in_app_or in Hin.
      destruct Hin as [Hin | [[= <- <-] | Hin]].
      * apply Hrun. apply in_or_app. now left.
      * split; [assumption |]. exists d'. apply Hk.
      * apply Hrun. apply in_or_app. right. now right.
    + intros t. rewrite Hw'. now apply (step_appends codes c).
    + exists [o]. split.
      * rewrite Hw'. apply step_trace.
      * constructor; [| constructor]. intros x Hx. now rewrite (Ho x Hx).
  - split; [| apply Hsame]. split; [assumption |].
    intros c' q' Hin. apply Hrun. apply in_app_or in Hin. apply in_or_app.
    destruct Hin; [now left | right; now right].
  - split; [| apply Hsame]. split; [assumption |].
    intros c' q' Hin. apply Hrun. apply in_app_or in Hin. apply in_or_app.
    destruct Hin; [now left | right; now right].
Qed.

Lemma pool_steps_grows (args : Namespace) (codes : list pystr) (n : nat)
    (P P' : Pool REAL U) :
  pool_steps ak args n P P' ->
  pool_codes_ok codes P ->
  (forall t, exists extra,
      table_rows (db (world P')) t = table_rows (db (world P)) t ++ extra /\
      Forall (fun r => In (ts_code r) codes) extra) /\
  (exists ops,
      trace (world P') = trace (world P) ++ ops /\
      Forall (fun o => forall x, In x (op_codes o) -> In x codes) ops).
Proof.
  intros Hs. induction Hs as [P | n P1 P2 P3 H12 H23 IH]; intros Hok.
  - split.
    + intros t. exists []. split; [now rewrite app_nil_r | constructor].
    + exists []. split; [now rewrite app_nil_r | constructor].
  - destruct (pool_step_grows args codes P1 P2 H12 Hok) as (Hok2 & Ht12 & ops12 & Htr12 & Hf12).
    destruct (IH Hok2) as (Ht23 & ops23 & Htr23 & Hf23). split.
    + intros t. destruct (Ht12 t) as (e1 & He1 & Hf1). destruct (Ht23 t) as (e2 & He2 & Hf2).
      exists (e1 ++ e2). rewrite He2, He1, app_assoc. split; [reflexivity |].
      now apply Forall_app.
    + exists (ops12 ++ ops23). rewrite Htr23, Htr12, app_assoc. split; [reflexivity |].
      now apply Forall_app.
Qed.

(** X7.  [main] touches the codes it was given and no others, under every
    schedule: at any moment of the pool's run each table holds the rows it
    held at the start, unchanged and in the same order, followed by rows
    of submitted codes; the rows of a code that was not submitted are
    exactly as they were; and every operation made mentions submitted
    codes only. *)
Theorem main_touches_only_its_codes (args : Namespace) (w : World REAL U) (n : nat)
    (P : Pool REAL U) :
  pool_steps ak args n (pool_init args w) P ->
  (forall t, exists extra,
      table_rows (db (world P)) t = table_rows (db w) t ++ extra /\
      Forall (fun r => In (ts_code r) (arg_codes args)) extra) /\
  (forall other, ~ In other (arg_codes args) -> same_rows other (db (world P)) (db w)) /\
  (forall ops o x,
      trace (world P) = trace w ++ ops -> In o ops -> In x (op_codes o) ->
      In x (arg_codes args)).
Proof.
  intros Hs.
  destruct (pool_steps_grows args (arg_codes args) n _ _ Hs (pool_codes_ok_init args w))
    as (Ht & ops & Htr & Hf).
  simpl in Ht, Htr. split; [exact Ht | split].
  - intros other Hno t. unfold rows_of. destruct (Ht t) as (extra & -> & Hfe).
    rewrite filter_app, (filter_code_none other extra), app_nil_r; [reflexivity |].
    intros r Hr Hc. apply Hno. rewrite <- Hc. rewrite Forall_forall in Hfe. now apply Hfe.
  - intros ops' o x Hops Hin Hx. rewrite Htr in Hops. apply app_inv_head in Hops.
    subst ops'. rewrite Forall_forall in Hf. now apply (Hf o Hin x).
Qed.

(* ===================================================================== *)
(** ** Further properties: resuming on stored data *)
(* ===================================================================== *)



(** The wrapped fetch either returns a frame the provider answered with,
    or raises [RetryError]; it leaves the database alone. *)
Lemma run_retry_call_outcome (c : ak_call) (w : World REAL U) :
  db (snd (run ak (retry 2 3 (upstream c)) w)) = db w /\
  ((exists df, fst (run ak (retry 2 3 (upstream c)) w) = Ok df /\ answered ak c df) \/
   (exists e, fst (run ak (retry 2 3 (upstream c)) w) = Raise (RetryError e))).
Proof.
  rewrite run_retry_call. cbv zeta.
  destruct (fst (ak (up w) c)) as [df | e1] eqn:E1.
  { split; [reflexivity | left]. exists df. split; [reflexivity | now exists (up w)]. }
  destruct (fst (ak (up (after_call ak c w)) c)) as [df | e2] eqn:E2.
  { split; [reflexivity | left]. exists df.
    split; [reflexivity | now exists (up (after_call ak c w))]. }
  destruct (fst (ak (up (after_call ak c (after_sleep 2 (after_call ak c w)))) c))
    as [df | e3] eqn:E3.
  { split; [reflexivity | left]. exists df. split; [reflexivity |].
    now exists (up (after_call ak c (after_sleep 2 (after_call ak c w)))). }
  split; [reflexivity | right]. now exists e3.
Qed.




(* ===================================================================== *)
(** ** Further properties: what a completed download has stored *)
(* ===================================================================== *)

(** A paragraph that comes to its end has added to its table the frame
    the provider answered with, and nothing else. *)
Lemma run_sync_kind_gain (t : Table) (code start end_ : pystr) (sleep_time : Q)
    (w : World REAL U) :
  fst (run ak (sync_kind t code start end_ sleep_time) w) = Ok tt ->
  exists df,
    answered ak (fetch_call t code (effective_start (db w) t code start) end_) df /\
    db (snd (run ak (sync_kind t code start end_ sleep_time) w))
    = set_table (db w) t (table_rows (db w) t ++ df_insert_ts_code code df).
Proof.
  unfold sync_kind. rewrite run_sync_kind_then, fetch_of_retry.
  destruct (run_retry_call_outcome
              (fetch_call t code (effective_start (db w) t code start) end_)
              (after_select t code w)) as [Hdb [(df & Hr & Hans) | (e' & Hr)]];
    destruct (run ak _ (after_select t code w)) as [[df' | e0] w2]; simpl in Hr, Hdb;
    try discriminate.
  - injection Hr as ->. destruct (df_empty df) eqn:Edf.
    + intros _. exists df. split; [assumption |].
      destruct df; [| discriminate]. simpl.
      now rewrite Hdb, app_nil_r, set_table_same_rows.
    + destruct (sql_insert (table_rows (db w2) t) (df_insert_ts_code code df))
        as [rows' |] eqn:Eins; simpl; [| discriminate].
      intros _. exists df. split; [assumption |].
      apply sql_insert_Some in Eins. now rewrite Eins, Hdb.
Qed.

(** X9.  When [download_stock] returns normally, each of the three
    tables holds the rows it held before followed by the lines of one
    answer of the provider, tagged with the code: the answer to the call
    for that table whose window starts at the start date the table gave
    when the run began. *)
Theorem completed_download_stores_the_answers (code start end_ : pystr) (sleep_time : Q)
    (w : World REAL U) :
  let out := run ak (download_stock code start end_ sleep_time) w in
  fst out = Ok tt ->
  forall t, exists df,
    answered ak (fetch_call t code (effective_start (db w) t code start) end_) df /\
    table_rows (db (snd out)) t = table_rows (db w) t ++ df_insert_ts_code code df.
Proof.
  cbv zeta. rewrite download_stock_unfold, run_sync_kind_seq.
  pose proof (run_sync_kind_gain daily code start end_ sleep_time w) as H1.
  destruct (run ak (sync_kind daily code start end_ sleep_time) w) as [[[] | e1] w1];
    [| simpl; discriminate].
  destruct (H1 eq_refl) as (df1 & Ha1 & Hdb1). clear H1. simpl in Hdb1.
  rewrite run_sync_kind_seq.
  pose proof (run_sync_kind_gain weekly code start end_ sleep_time w1) as H2.
  destruct (run ak (sync_kind weekly code start end_ sleep_time) w1) as [[[] | e2] w2];
    [| simpl; discriminate].
  destruct (H2 eq_refl) as (df2 & Ha2 & Hdb2). clear H2. simpl in Hdb2.
  pose proof (run_sync_kind_gain minute code start end_ sleep_time w2) as H3.
  destruct (run ak (sync_kind minute code start end_ sleep_time) w2) as [[[] | e3] w3];
    [| simpl; discriminate].
  destruct (H3 eq_refl) as (df3 & Ha3 & Hdb3). clear H3. simpl in Hdb3.
  intros _ t. simpl.
  assert (E2 : effective_start (db w1) weekly code start
               = effective_start (db w) weekly code start).
  { apply effective_start_ext. rewrite Hdb1. reflexivity. }
  assert (E3 : effective_start (db w2) minute code start
               = effective_start (db w) minute code start).
  { apply effective_start_ext. rewrite Hdb2, Hdb1. reflexivity. }
  rewrite E2 in Ha2. rewrite E3 in Ha3.
  destruct t; [exists df1 | exists df2 | exists df3]; (split; [assumption |]);
    rewrite Hdb3, Hdb2, Hdb1; reflexivity.
Qed.

(* ===================================================================== *)
(** ** Further properties: the web front-end *)
(* ===================================================================== *)

Lemma fetch_ops_no_failed_symbol (c : ak_call) (f : list (op REAL)) :
  fetch_ops c f -> count_ops is_failed_symbol f = 0%nat.
Proof. intros H. destruct H; reflexivity. Qed.

Lemma kind_ops_no_failed_symbol (s : Store REAL) (code start end_ : pystr) (sleep_time : Q)
    (t : Table) (b : bool) (ops : list (op REAL)) :
  kind_ops ak s code start end_ sleep_time t b ops ->
  count_ops is_failed_symbol ops = 0%nat.
Proof.
  intros H.
  destruct H as [f Hf | f Hf | f df Hf Ha Hne | f df Hf Ha Hne];
    match goal with
    | |- context [SelectMax t code :: ?l] =>
        change (SelectMax t code :: l) with ([SelectMax (REAL := REAL) t code] ++ l)
    end;
    rewrite ?count_ops_app, (fetch_ops_no_failed_symbol _ _ Hf); reflexivity.
Qed.

Lemma kinds_ops_no_failed_symbol (s : Store REAL) (code start end_ : pystr)
    (sleep_time : Q) (ts : list Table) (b : bool) (ops : list (op REAL)) :
  kinds_ops ak s code start end_ sleep_time ts b ops ->
  count_ops is_failed_symbol ops = 0%nat.
Proof.
  intros H. induction H as [| t ts o Hk | t ts b o os Hk Hks IH].
  - reflexivity.
  - now apply kind_ops_no_failed_symbol in Hk.
  - rewrite count_ops_app, IH. now apply kind_ops_no_failed_symbol in Hk as ->.
Qed.

Section FlaskDownload.

Variable unicode_isdigit : N -> bool.
Variable unicode_isspace : N -> bool.

(** The signs that [zfill] looks for are no digits, and no digit is
    white space. *)
Hypothesis sign_not_digit :
  unicode_isdigit (ord "+") = false /\ unicode_isdigit (ord "-") = false.
Hypothesis digit_not_space :
  forall c, unicode_isdigit c = true -> unicode_isspace c = false.

Lemma valid_symbols_cons (c : pystr) (codes : list pystr) :
  valid_symbols unicode_isdigit unicode_isspace (c :: codes) =
  if truthy (adapt_code unicode_isdigit unicode_isspace c)
  then adapt_code unicode_isdigit unicode_isspace c
       :: valid_symbols unicode_isdigit unicode_isspace codes
  else valid_symbols unicode_isdigit unicode_isspace codes.
Proof. reflexivity. Qed.

(** The loop of [download]: it returns; the symbols it adds to
    [downloaded] and the failures it prints are, together, as many as the
    codes whose normalisation is not empty. *)
Lemma run_download_loop (codes : list pystr) (start end_ : pystr)
    (downloaded : list pystr) (w : World REAL U) :
  exists added ops,
    fst (run ak (download_loop unicode_isdigit unicode_isspace codes start end_ downloaded) w)
    = Ok (downloaded ++ added) /\
    trace (snd (run ak (download_loop unicode_isdigit unicode_isspace codes start end_
                          downloaded) w))
    = trace w ++ ops /\
    (length added + count_ops is_failed_symbol ops
     = length (valid_symbols unicode_isdigit unicode_isspace codes))%nat.
Proof.
  revert downloaded w. induction codes as [| c codes IH]; intros downloaded w.
  - exists [], []. simpl. rewrite !app_nil_r. repeat split.
  - rewrite download_loop_cons, valid_symbols_cons. cbv zeta.
    destruct (truthy (adapt_code unicode_isdigit unicode_isspace c)) eqn:Et;
      simpl negb; cbv iota; [| apply IH].
    set (symbol := adapt_code unicode_isdigit unicode_isspace c).
    rewrite run_bind, run_try_except, run_bind.
    destruct (run_download_stock_ops symbol start end_ DEFAULT_SLEEP w)
      as (ops1 & Htr1 & Hk1).
    apply kinds_ops_no_failed_symbol in Hk1.
    destruct (run ak (download_stock symbol start end_ DEFAULT_SLEEP) w) as [[[] | e] w1];
      simpl in Htr1.
    + simpl run.
      destruct (IH (downloaded ++ [symbol]) w1) as (added & ops & Hr & Htr & Hn).
      exists (symbol :: added), (ops1 ++ ops). split; [| split].
      * rewrite Hr, <- app_assoc. reflexivity.
      * rewrite Htr, Htr1, app_assoc. reflexivity.
      * rewrite count_ops_app, Hk1. cbn [length]. lia.
    + simpl run.
      destruct (IH downloaded
                  (mkWorld (db w1) (up w1) (trace w1 ++ [Print (FailedSymbol symbol e)])))
        as (added & ops & Hr & Htr & Hn).
      exists added, (ops1 ++ [Print (FailedSymbol symbol e)] ++ ops). split; [| split].
      * exact Hr.
      * rewrite Htr. cbn [trace]. rewrite Htr1, <- !app_assoc. reflexivity.
      * rewrite !count_ops_app, Hk1.
        change (count_ops is_failed_symbol [Print (REAL := REAL) (FailedSymbol symbol e)])
          with 1%nat.
        cbn [length]. lia.
Qed.

(** X10.  [download] never raises, and every code whose normalisation is
    not empty is accounted for: it is either counted in the answer or
    reported by one [Failed ...] line.  The answer is
    [Downloaded n stocks.] with n the number of such codes less the
    number of failures when this is positive, and
    [No valid codes provided.] when it is 0, which is also the case when
    there were valid codes and all of them failed. *)
Theorem download_accounts_for_every_symbol (codes : list pystr) (start end_ : pystr)
    (w : World REAL U) :
  let out := run ak (download unicode_isdigit unicode_isspace codes start end_) w in
  let valid := length (valid_symbols unicode_isdigit unicode_isspace codes) in
  exists ops,
    trace (snd out) = trace w ++ ops /\
    (count_ops is_failed_symbol ops <= valid)%nat /\
    fst out =
    Ok (if (valid - count_ops is_failed_symbol ops =? 0)%nat then NoValidCodes
        else DownloadedStocks (valid - count_ops is_failed_symbol ops)).
Proof.
  cbv zeta. unfold download. rewrite run_bind.
  destruct (run_download_loop codes start end_ [] w) as (added & ops & Hr & Htr & Hn).
  destruct (run ak (download_loop unicode_isdigit unicode_isspace codes start end_ []) w)
    as [[d | e] w1]; simpl in Hr, Htr; [| discriminate].
  injection Hr as ->. exists ops. simpl. split; [assumption | split; [lia |]].
  replace (length (valid_symbols unicode_isdigit unicode_isspace codes)
           - count_ops is_failed_symbol ops)%nat with (length added) by lia.
  destruct added; reflexivity.
Qed.

Lemma lstrip_no_space (s : pystr) :
  (forall c, In c s -> unicode_isspace c = false) -> lstrip unicode_isspace s = s.
Proof.
  destruct s as [| c s]; [reflexivity |]. intros H. simpl.
  now rewrite (H c) by now left.
Qed.

Lemma strip_no_space (s : pystr) :
  (forall c, In c s -> unicode_isspace c = false) -> strip unicode_isspace s = s.
Proof.
  intros H. unfold strip, rstrip. rewrite (lstrip_no_space s H).
  rewrite lstrip_no_space; [apply rev_involutive |].
  intros c Hc. apply H. now apply in_rev.
Qed.

Lemma isdigit_forall (s : pystr) :
  isdigit unicode_isdigit s = true ->
  s <> [] /\ forall c, In c s -> unicode_isdigit c = true.
Proof.
  destruct s as [| c s]; [discriminate |]. unfold isdigit. intros H.
  split; [discriminate |]. now apply forallb_forall.
Qed.

(** X11.  A code made of digits, as all the codes are that [download]
    keeps (line 58), is never skipped: its normalisation is [sh] or [sz],
    by its own first character, followed by the code itself with zeros
    on its left up to 6 characters; so it has 8 characters, or more when
    the code has more than 6, and the symbols handed to
    [download_stock] are the normalisations of all the codes, in their
    order. *)
Theorem digit_codes_are_never_skipped (codes : list pystr) :
  (forall c, In c codes -> isdigit unicode_isdigit c = true) ->
  valid_symbols unicode_isdigit unicode_isspace codes
  = map (adapt_code unicode_isdigit unicode_isspace) codes /\
  forall c, In c codes ->
    adapt_code unicode_isdigit unicode_isspace c
    = (if startswith c (str "6") then str "sh" else str "sz")
        ++ repeat (ord "0") (6 - length c) ++ c /\
    length (adapt_code unicode_isdigit unicode_isspace c) = (2 + Nat.max 6 (length c))%nat.
Proof.
  intros Hall.
  assert (Hshape : forall c, isdigit unicode_isdigit c = true ->
             adapt_code unicode_isdigit unicode_isspace c
             = (if startswith c (str "6") then str "sh" else str "sz")
                 ++ repeat (ord "0") (6 - length c) ++ c).
  { intros c Hc. destruct (isdigit_forall c Hc) as [Hne Hd].
    unfold adapt_code. rewrite strip_no_space by (intros x Hx; auto).
    rewrite Hc. simpl negb. cbv iota.
    now rewrite (zfill_digits unicode_isdigit sign_not_digit c 6 Hd). }
  split.
  - unfold valid_symbols. induction codes as [| c codes IH]; [reflexivity |].
    cbn [map filter]. rewrite (Hshape c) by (apply Hall; now left).
    replace (truthy _) with true by (destruct (startswith c (str "6")); reflexivity).
    f_equal. apply IH. intros c' Hc'. apply Hall. now right.
  - intros c Hc. rewrite (Hshape c (Hall c Hc)). split; [reflexivity |].
    rewrite !length_app, repeat_length.
    destruct (startswith c (str "6")); simpl length; lia.
Qed.

End FlaskDownload.
End Properties.

(* ===================================================================== *)
(** ** Concrete runs *)
(* ===================================================================== *)



(** C2 at a concrete input: the provider holds one daily line, of
    2 January 2020.  The first run of [download_stock] on a new database
    stores it and returns.  The second run, with the same arguments, finds
    2 January as the last stored date, asks for the window from that day
    on, is answered with the same line, and raises [IntegrityError] on its
    insert; the database stays as the first run left it. *)
Theorem second_run_raises :
  fst (run (inclusive_provider history_one_day)
         (download_stock code_a start_2020 end_jan_2020 (1 # 2)%Q) (fresh_world tt))
  = Ok tt /\
  fst (run (inclusive_provider history_one_day)
         (download_stock code_a start_2020 end_jan_2020 (1 # 2)%Q)
         (snd (run (inclusive_provider history_one_day)
                 (download_stock code_a start_2020 end_jan_2020 (1 # 2)%Q)
                 (fresh_world tt))))
  = Raise IntegrityError /\
  db (snd (run (inclusive_provider history_one_day)
             (download_stock code_a start_2020 end_jan_2020 (1 # 2)%Q)
             (snd (run (inclusive_provider history_one_day)
                     (download_stock code_a start_2020 end_jan_2020 (1 # 2)%Q)
                     (fresh_world tt)))))
  = mkStore [mkRow code_a jan_2 (mkBar 10 10 10 10 10 10)%Z] [] [].
Proof. repeat split; vm_compute; reflexivity. Qed.

(** C3, as it was stated, fails: for [code_a], whose weekly fetch always
    raises while the provider has a minute line for it, [download_stock]
    raises after the weekly paragraph; the daily line is stored, and
    nothing is stored in [minute]. *)
Lemma weekly_failure_skips_minute :
  fst (inclusive_provider history_weekly_fails tt
         (fetch_call minute code_a start_2020 end_jan_2020))
  = Ok [flat_line (str "20200102 09:31") 12%Z] /\
  fst (run (inclusive_provider history_weekly_fails)
         (download_stock code_a start_2020 end_jan_2020 (1 # 2)%Q) (fresh_world tt))
  = Raise (RetryError (ProviderError (str "weekly"))) /\
  db (snd (run (inclusive_provider history_weekly_fails)
             (download_stock code_a start_2020 end_jan_2020 (1 # 2)%Q) (fresh_world tt)))
  = mkStore [mkRow code_a jan_2 (mkBar 10 10 10 10 10 10)%Z] [] [].
Proof. repeat split; vm_compute; reflexivity. Qed.

(** The provider with a fixed history has no state. *)
Lemma stateless_inclusive_provider (history : Table -> pystr -> result (DataFrame Z)) :
  stateless (inclusive_provider history).
Proof. intros u u' c. reflexivity. Qed.

(** The weekly failure of [code_a], and [code_b] in the same run of the
    pool with a single worker. *)
Lemma fetch_failure_stops_entity_witness :
  (exists e,
      fst (run (inclusive_provider history_weekly_fails)
             (download_stock code_a start_2020 end_jan_2020 (1 # 2)%Q) (fresh_world tt))
      = Raise (RetryError e)) /\
  same_rows code_b
    (db (run_tasks (inclusive_provider history_weekly_fails) args_ab [code_a; code_b]
           (fresh_world tt)))
    (db (snd (run (inclusive_provider history_weekly_fails) (task args_ab code_b)
                (fresh_world tt)))).
Proof.
  destruct (fetch_failure_stops_entity (inclusive_provider history_weekly_fails)
              args_ab code_a (fresh_world tt)) as (_ & Hweekly & _ & Hiso).
  split.
  - destruct Hweekly as [_ Hok].
    + intros u c Hc Hs. unfold inclusive_provider. rewrite Hc, Hs.
      exists (ProviderError (str "weekly")). reflexivity.
    + destruct Hok as (e & He & _); [reflexivity |]. exists e. exact He.
  - assert (G : forall W n,
               pool_steps (inclusive_provider history_weekly_fails) args_ab n
                 (pool_init args_ab (fresh_world tt)) (mkPool [] [] W) ->
               same_rows code_b (db W)
                 (db (snd (run (inclusive_provider history_weekly_fails)
                             (task args_ab code_b) (fresh_world tt))))).
    { intros W n Hn.
      apply (Hiso (stateless_inclusive_provider history_weekly_fails) code_b n
               (mkPool [] [] W)); [reflexivity | exact Hn | split; reflexivity]. }
    destruct (pool_steps_sequential (inclusive_provider history_weekly_fails) args_ab
                (arg_codes args_ab) (fresh_world tt) (thread_count_positive args_ab))
      as [n Hn].
    exact (G _ n Hn).
Defined.

(** C4, as it was stated, fails: on a database whose only daily row for
    [code_a] has the empty string as its timestamp, that string is the
    greatest timestamp stored, and the daily call starts at the requested
    date. *)
Lemma empty_last_date_uses_requested_start :
  is_last_stored (db world_empty_date) daily code_a [] /\
  In (Upstream (stock_zh_a_hist code_a (str "daily") start_2020 end_jan_2020))
    (trace (snd (run (inclusive_provider history_one_day)
                   (download_stock code_a start_2020 end_jan_2020 (1 # 2)%Q)
                   world_empty_date))) /\
  start_2020 <> [].
Proof.
  split; [split |].
  - left. reflexivity.
  - intros d [<- | []]. reflexivity.
  - split; [vm_compute; right; left; reflexivity | discriminate].
Qed.

(** With the daily row of 2 January stored and the start 1 January
    requested, the daily call starts on 2 January. *)
Lemma fetch_window_start_witness :
  exists t,
    stock_zh_a_hist code_a (str "daily") jan_2 end_jan_2020
    = fetch_call t code_a
        (call_start (stock_zh_a_hist code_a (str "daily") jan_2 end_jan_2020))
        end_jan_2020 /\
    (stored_dates (db world_one_day) t code_a = [] ->
     call_start (stock_zh_a_hist code_a (str "daily") jan_2 end_jan_2020) = start_2020) /\
    (forall T, is_last_stored (db world_one_day) t code_a T -> T <> [] ->
     call_start (stock_zh_a_hist code_a (str "daily") jan_2 end_jan_2020) = T) /\
    (is_last_stored (db world_one_day) t code_a [] ->
     call_start (stock_zh_a_hist code_a (str "daily") jan_2 end_jan_2020) = start_2020).
Proof.
  apply (fetch_window_start (inclusive_provider history_one_day) code_a start_2020
           end_jan_2020 (1 # 2)%Q world_one_day
           (trace (snd (run (inclusive_provider history_one_day)
                          (download_stock code_a start_2020 end_jan_2020 (1 # 2)%Q)
                          world_one_day)))).
  - reflexivity.
  - vm_compute. right. left. reflexivity.
Defined.

(** A provider that fails twice and then answers, and one that fails
    three times. *)
Lemma fetch_retry_bound_witness :
  (fst (run (flaky_provider 2 [flat_line jan_2 10%Z])
          (fetch_of daily code_a start_2020 end_jan_2020) (fresh_world 0%nat))
   = Ok [flat_line jan_2 10%Z] /\
   trace (snd (run (flaky_provider 2 [flat_line jan_2 10%Z])
                 (fetch_of daily code_a start_2020 end_jan_2020) (fresh_world 0%nat)))
   = [Upstream (fetch_call daily code_a start_2020 end_jan_2020); Sleep 2;
      Upstream (fetch_call daily code_a start_2020 end_jan_2020); Sleep 2;
      Upstream (fetch_call daily code_a start_2020 end_jan_2020)]) /\
  (fst (run (flaky_provider 3 [flat_line jan_2 10%Z])
          (fetch_of weekly code_a start_2020 end_jan_2020) (fresh_world 0%nat))
   = Raise (RetryError (ProviderError (str "timeout"))) /\
   trace (snd (run (flaky_provider 3 [flat_line jan_2 10%Z])
                 (fetch_of weekly code_a start_2020 end_jan_2020) (fresh_world 0%nat)))
   = [Upstream (fetch_call weekly code_a start_2020 end_jan_2020); Sleep 2;
      Upstream (fetch_call weekly code_a start_2020 end_jan_2020); Sleep 2;
      Upstream (fetch_call weekly code_a start_2020 end_jan_2020)]).
Proof.
  split.
  - apply (proj1 (proj2 (proj2
             (fetch_retry_bound (flaky_provider 2 [flat_line jan_2 10%Z]) daily code_a
                start_2020 end_jan_2020 (fresh_world 0%nat))))
             (ProviderError (str "timeout")) (ProviderError (str "timeout")));
      reflexivity.
  - apply (proj1 (proj2 (proj2 (proj2
             (fetch_retry_bound (flaky_provider 3 [flat_line jan_2 10%Z]) weekly code_a
                start_2020 end_jan_2020 (fresh_world 0%nat)))))
             (ProviderError (str "timeout")) (ProviderError (str "timeout")));
      reflexivity.
Defined.



(** Requests of 0, 1000 and 4 threads. *)
Lemma thread_count_clamped_witness :
  thread_count (mkNamespace [code_a] start_2020 end_jan_2020 0 (1 # 2)%Q) = 1%Z /\
  thread_count (mkNamespace [code_a] start_2020 end_jan_2020 1000 (1 # 2)%Q) = 300%Z /\
  thread_count (mkNamespace [code_a] start_2020 end_jan_2020 4 (1 # 2)%Q) = 4%Z.
Proof.
  split; [| split].
  - apply (proj1 (proj2 (thread_count_clamped (inclusive_provider history_one_day)
                           (mkNamespace [code_a] start_2020 end_jan_2020 0 (1 # 2)%Q)))).
    simpl. lia.
  - apply (proj1 (proj2 (proj2
             (thread_count_clamped (inclusive_provider history_one_day)
                (mkNamespace [code_a] start_2020 end_jan_2020 1000 (1 # 2)%Q))))).
    simpl. lia.
  - apply (proj1 (proj2 (proj2 (proj2
             (thread_count_clamped (inclusive_provider history_one_day)
                (mkNamespace [code_a] start_2020 end_jan_2020 4 (1 # 2)%Q)))))).
    simpl. lia.
Defined.

(** Three inputs of the form, with the ASCII tables. *)
Lemma adapt_code_normalises_witness :
  adapt_code ascii_isdigit ascii_isspace (str " 600036 ") = str "sh600036" /\
  adapt_code ascii_isdigit ascii_isspace (str "1") = str "sz000001" /\
  adapt_code ascii_isdigit ascii_isspace (str "12a") = [].
Proof.
  assert (Hsign : ascii_isdigit (ord "+") = false /\ ascii_isdigit (ord "-") = false)
    by (split; reflexivity).
  split; [| split].
  - destruct (adapt_code_normalises (REAL := Z) (inclusive_provider history_one_day)
                ascii_isdigit ascii_isspace Hsign (str " 600036 "))
      as (_ & _ & Hdigits & _).
    destruct Hdigits as [Hsh _].
    + discriminate.
    + vm_compute. intros c H.
      repeat (destruct H as [<- | H]; [reflexivity |]). destruct H.
    + apply Hsh. exists (str "00036"). reflexivity.
  - destruct (adapt_code_normalises (REAL := Z) (inclusive_provider history_one_day)
                ascii_isdigit ascii_isspace Hsign (str "1"))
      as (_ & _ & Hdigits & _).
    destruct Hdigits as [_ Hsz].
    + discriminate.
    + vm_compute. intros c H.
      repeat (destruct H as [<- | H]; [reflexivity |]). destruct H.
    + apply Hsz. intros rest. discriminate.
  - destruct (adapt_code_normalises (REAL := Z) (inclusive_provider history_one_day)
                ascii_isdigit ascii_isspace Hsign (str "12a"))
      as (Hbad & _).
    apply Hbad. exists (ord "a"). split; [vm_compute; auto | reflexivity].
Defined.

(** With the daily line of 2 January stored for [code_a], and a provider
    that answers every call with a line of 3 January: the last stored
    date goes from 2 January to 3 January. *)
Lemma watermark_never_goes_back_witness :
  is_last_stored (db world_one_day) daily code_a jan_2 /\
  is_last_stored
    (db (snd (run (constant_provider [flat_line jan_3 11%Z])
                (download_stock code_a start_2020 end_jan_2020 (1 # 2)%Q) world_one_day)))
    daily code_a jan_3 /\
  str_leb jan_2 jan_3 = true.
Proof.
  assert (H1 : is_last_stored (db world_one_day) daily code_a jan_2).
  { split; [left; reflexivity | intros d [<- | []]; reflexivity]. }
  assert (H2 : is_last_stored
                 (db (snd (run (constant_provider [flat_line jan_3 11%Z])
                             (download_stock code_a start_2020 end_jan_2020 (1 # 2)%Q)
                             world_one_day)))
                 daily code_a jan_3).
  { split; [vm_compute; right; left; reflexivity |].
    intros d Hd. vm_compute in Hd. destruct Hd as [<- | [<- | []]]; reflexivity. }
  split; [exact H1 | split; [exact H2 |]].
  exact (watermark_never_goes_back (constant_provider [flat_line jan_3 11%Z]) code_a
           start_2020 end_jan_2020 (1 # 2)%Q world_one_day daily code_a jan_2 jan_3 H1 H2).
Defined.

(** A first download of [code_a] with half a second between requests. *)
Lemma download_stock_effort_witness :
  (count_ops is_call
     (trace (snd (run (inclusive_provider history_one_day)
                    (download_stock code_a start_2020 end_jan_2020 (1 # 2)%Q)
                    (fresh_world tt)))) <= 9)%nat /\
  (count_ops is_query
     (trace (snd (run (inclusive_provider history_one_day)
                    (download_stock code_a start_2020 end_jan_2020 (1 # 2)%Q)
                    (fresh_world tt)))) <= 3)%nat /\
  (count_ops is_insert
     (trace (snd (run (inclusive_provider history_one_day)
                    (download_stock code_a start_2020 end_jan_2020 (1 # 2)%Q)
                    (fresh_world tt)))) <= 3)%nat /\
  (slept
     (trace (snd (run (inclusive_provider history_one_day)
                    (download_stock code_a start_2020 end_jan_2020 (1 # 2)%Q)
                    (fresh_world tt)))) <= 12 + 3 * (1 # 2))%Q.
Proof.
  apply (download_stock_effort (inclusive_provider history_one_day) code_a start_2020
           end_jan_2020 (1 # 2)%Q (fresh_world tt)).
  - discriminate.
  - reflexivity.
Defined.

(** The two codes with one worker: the pool ends where the two tasks run
    in a row end. *)
Lemma single_worker_is_sequential_witness :
  (arg_threads args_one_worker <= 1)%Z /\
  exists n P,
    pool_steps (inclusive_provider history_one_day) args_one_worker n
      (pool_init args_one_worker (fresh_world tt)) P /\
    pool_idle P /\
    world P = run_tasks (inclusive_provider history_one_day) args_one_worker
                (arg_codes args_one_worker) (fresh_world tt).
Proof.
  assert (Ht : (arg_threads args_one_worker <= 1)%Z) by (simpl; lia).
  split; [exact Ht |].
  assert (G : forall W n,
             pool_steps (inclusive_provider history_one_day) args_one_worker n
               (pool_init args_one_worker (fresh_world tt)) (mkPool [] [] W) ->
             world (mkPool [] [] W)
             = run_tasks (inclusive_provider history_one_day) args_one_worker
                 (arg_codes args_one_worker) (fresh_world tt)).
  { intros W n Hn.
    apply (single_worker_is_sequential (inclusive_provider history_one_day)
             args_one_worker (fresh_world tt) n (mkPool [] [] W) Ht Hn).
    split; reflexivity. }
  destruct (pool_steps_sequential (inclusive_provider history_one_day) args_one_worker
              (arg_codes args_one_worker) (fresh_world tt)
              (thread_count_positive args_one_worker)) as [n Hn].
  exists n. eexists. split; [exact Hn | split; [split; reflexivity |]].
  exact (G _ n Hn).
Defined.

(** The two codes in the pool: nothing is stored for [code_c]. *)
Lemma main_touches_only_its_codes_witness :
  same_rows code_c
    (db (run_tasks (inclusive_provider history_one_day) args_ab [code_a; code_b]
           (fresh_world tt)))
    (db (fresh_world (U := unit) tt)).
Proof.
  assert (Hc : ~ In code_c (arg_codes args_ab)).
  { intros [H | [H | []]]; discriminate H. }
  assert (G : forall W n,
             pool_steps (inclusive_provider history_one_day) args_ab n
               (pool_init args_ab (fresh_world tt)) (mkPool [] [] W) ->
             same_rows code_c (db W) (db (fresh_world (U := unit) tt))).
  { intros W n Hn.
    exact (proj1 (proj2 (main_touches_only_its_codes (inclusive_provider history_one_day)
                           args_ab (fresh_world tt) n (mkPool [] [] W) Hn)) code_c Hc). }
  destruct (pool_steps_sequential (inclusive_provider history_one_day) args_ab
              (arg_codes args_ab) (fresh_world tt) (thread_count_positive args_ab))
    as [n Hn].
  exact (G _ n Hn).
Defined.


(** The first download of [code_a]: the daily table has gained an answer
    of the provider. *)
Lemma completed_download_stores_the_answers_witness :
  exists df,
    answered (inclusive_provider history_one_day)
      (fetch_call daily code_a
         (effective_start (db (fresh_world (U := unit) tt)) daily code_a start_2020)
         end_jan_2020) df /\
    table_rows
      (db (snd (run (inclusive_provider history_one_day)
                  (download_stock code_a start_2020 end_jan_2020 (1 # 2)%Q)
                  (fresh_world tt))))
      daily
    = table_rows (db (fresh_world (U := unit) tt)) daily ++ df_insert_ts_code code_a df.
Proof.
  assert (H : fst (run (inclusive_provider history_one_day)
                     (download_stock code_a start_2020 end_jan_2020 (1 # 2)%Q)
                     (fresh_world tt)) = Ok tt) by (vm_compute; reflexivity).
  exact (completed_download_stores_the_answers (inclusive_provider history_one_day) code_a
           start_2020 end_jan_2020 (1 # 2)%Q (fresh_world tt) H daily).
Defined.

(** Two codes of digits, with the ASCII tables. *)
Lemma digit_codes_are_never_skipped_witness :
  valid_symbols ascii_isdigit ascii_isspace [str "600036"; str "1"]
  = [str "sh600036"; str "sz000001"].
Proof.
  assert (Hsign : ascii_isdigit (ord "+") = false /\ ascii_isdigit (ord "-") = false)
    by (split; reflexivity).
  assert (Hspace : forall c, ascii_isdigit c = true -> ascii_isspace c = false).
  { intros c H. unfold ascii_isdigit in H. apply andb_true_iff in H.
    destruct H as [H1 H2]. apply N.leb_le in H1. apply N.leb_le in H2.
    unfold ascii_isspace. apply orb_false_iff. split.
    - apply andb_false_iff. right. apply N.leb_gt. lia.
    - apply N.eqb_neq. lia. }
  assert (Hd : forall c, In c [str "600036"; str "1"] -> isdigit ascii_isdigit c = true).
  { intros c [<- | [<- | []]]; reflexivity. }
  destruct (digit_codes_are_never_skipped ascii_isdigit ascii_isspace Hsign Hspace
              [str "600036"; str "1"] Hd) as [Hv _].
  rewrite Hv. reflexivity.
Defined.
